(** * Newsletter curator: a shallow embedding of [curator.py]

    The development follows [src/hackernews_scraping/curator.py]: the static
    taxonomy, [classify_item], [calculate_engagement_quality] with
    [_calculate_quality_tier], the editorial layer, [group_by_theme] and
    [NewsletterCurator.curate].

    Conventions of the embedding.
    - A raw item is a Python dict.  A key of it is [Absent], present with the
      value [None] ([Null]), or present with a value ([Val]).
    - Counts are Python ints ([Z]).  Python floats are read as exact rationals
      ([Q]); [round(x, n)] is rounding to [n] decimals, ties to even.  The
      relevance score, whose value depends on the rounding of doubles, is
      also given in IEEE binary64 ([classify_item_f64]).
    - A Python exception is a [Raise] result; nothing in [curate] catches one
      except the bare [except:] around the timestamp arithmetic.
    - [datetime.now()] is a clock reading supplied from outside, one reading
      per record of the batch. *)

From Stdlib Require Import ZArith QArith Qround String Ascii List Bool Lia.
From Stdlib Require Import Sorting.Sorted Sorting.Permutation.
From stdpp Require Import gmap strings.

Import ListNotations.
Local Open Scope string_scope.
Local Open Scope Z_scope.

(** ** Python values *)

Inductive field (A : Type) : Type :=
| Absent
| Null
| Val (a : A).
Arguments Absent {A}.
Arguments Null {A}.
Arguments Val {A} a.

(** [d.get(k)]: [None] stands for Python's [None]. *)
Definition get {A} (f : field A) : option A :=
  match f with
  | Val a => Some a
  | _ => None
  end.

(** [d.get(k, dflt)]: the default replaces an absent key only. *)
Definition get_default {A} (f : field A) (dflt : A) : option A :=
  match f with
  | Absent => Some dflt
  | Null => None
  | Val a => Some a
  end.

Inductive exn : Type :=
| TypeError
| AttributeError.

Inductive result (A : Type) : Type :=
| Ok (a : A)
| Raise (e : exn).
Arguments Ok {A} a.
Arguments Raise {A} e.

#[global] Instance result_ret : MRet result := fun A a => Ok a.
#[global] Instance result_bind : MBind result := fun A B k r =>
  match r with
  | Ok a => k a
  | Raise e => Raise e
  end.

(** ** Strings *)

Definition lower_ascii (c : ascii) : ascii :=
  let n := nat_of_ascii c in
  if (65 <=? n)%nat && (n <=? 90)%nat then ascii_of_nat (n + 32) else c.

(** [str.lower()], on ASCII letters; other bytes are kept. *)
Fixpoint lower (s : string) : string :=
  match s with
  | EmptyString => EmptyString
  | String c s' => String (lower_ascii c) (lower s')
  end.

(** [needle in hay] on strings. *)
Fixpoint contains (needle hay : string) : bool :=
  match hay with
  | EmptyString => String.prefix needle EmptyString
  | String _ hay' => String.prefix needle hay || contains needle hay'
  end.

(** [any(x in s for x in xs)] *)
Definition any_in (xs : list string) (s : string) : bool :=
  existsb (fun x => contains x s) xs.

(** [sep.join(xs)] *)
Fixpoint join (sep : string) (xs : list string) : string :=
  match xs with
  | [] => ""
  | [x] => x
  | x :: xs' => x ++ sep ++ join sep xs'
  end.

(** ** Rationals standing for floats *)

Definition Qltb (x y : Q) : bool := negb (Qle_bool y x).

(** [min(x, y)] and [max(x, y)] return the first argument unless the second
    is strictly smaller (larger). *)
Definition py_min (x y : Q) : Q := if Qltb y x then y else x.
Definition py_max (x y : Q) : Q := if Qltb x y then y else x.

Definition round_half_even (x : Q) : Z :=
  let f := Qfloor x in
  match Qcompare (x - inject_Z f) (1 # 2) with
  | Lt => f
  | Gt => f + 1
  | Eq => if Z.even f then f else f + 1
  end.

(** [round(x, 2)] and [round(x, 1)], on the exact rational.  Python rounds
    the binary double, which is a little off the rational, so at a decimal
    tie (0.175, 5.025) the two can fall on different sides; the properties
    stated on these two functions do not depend on the side.  The rounding
    of the double itself is [py_round2] below. *)
Definition round2 (x : Q) : Q := round_half_even (x * 100) # 100.
Definition round1 (x : Q) : Q := round_half_even (x * 10) # 10.

(** ** Taxonomy *)

Record Topic : Type := {
  topic_id : string;
  keywords : list string;
  weight : Q;
  label : string
}.

Definition AI_TOPICS : list Topic := [
  {| topic_id := "llm";
     keywords := ["llm"; "gpt"; "claude"; "gemini"; "openai"; "anthropic"; "deepseek";
                  "language model"; "chatgpt"; "transformer"; "llama"; "mistral"; "phi-3";
                  "copilot"; "cursor"; "coding agent"; "ai agent"; "agentic"];
     weight := 1;
     label := "Large Language Models" |};
  {| topic_id := "ml_research";
     keywords := ["neural network"; "deep learning"; "machine learning"; "training";
                  "inference"; "model"; "benchmark"; "fine-tuning"; "rlhf"; "reasoning";
                  "diffusion"; "attention"; "embedding"; "vector"];
     weight := 9 # 10;
     label := "ML Research" |};
  {| topic_id := "ai_product";
     keywords := ["ai-powered"; "ai app"; "ai startup"; "ai tool"; "ai api";
                  "generative ai"; "ai feature"; "ai integration"];
     weight := 85 # 100;
     label := "AI Products" |};
  {| topic_id := "ai_infra";
     keywords := ["gpu"; "cuda"; "tpu"; "nvidia"; "h100"; "inference server";
                  "model serving"; "vllm"; "triton"; "onnx"; "tensorrt"];
     weight := 9 # 10;
     label := "AI Infrastructure" |};
  {| topic_id := "ai_ethics";
     keywords := ["ai safety"; "alignment"; "hallucination"; "bias"; "regulation";
                  "ai policy"; "ai governance"; "responsible ai"];
     weight := 8 # 10;
     label := "AI Ethics & Safety" |};
  {| topic_id := "developer_tools";
     keywords := ["developer"; "devtools"; "ide"; "vscode"; "programming"; "coding";
                  "software engineering"; "api"; "sdk"; "framework"; "library"];
     weight := 6 # 10;
     label := "Developer Tools" |};
  {| topic_id := "tech_industry";
     keywords := ["startup"; "funding"; "acquisition"; "layoff"; "hiring";
                  "tech company"; "silicon valley"; "yc"; "vc"; "series a"];
     weight := 5 # 10;
     label := "Tech Industry" |};
  {| topic_id := "data_engineering";
     keywords := ["database"; "sql"; "postgres"; "data pipeline"; "etl";
                  "data warehouse"; "analytics"; "bigquery"; "snowflake"];
     weight := 5 # 10;
     label := "Data Engineering" |}
].

Definition NOISE_KEYWORDS : list string := [
  "sleep in lax"; "where to sleep"; "music club"; "diy music";
  "linguistics"; "passive voice"; "grammar"; "heating homes";
  "weather satellite"; "cancer treatment"; "drug trial";
  "wifi only works"; "curved things"; "board games"
].

(** ** Raw items *)

Record Metadata : Type := {
  kids_count : field Z
}.

(** [published_at] holds what [datetime.fromisoformat] makes of the key, in
    microseconds on the naive local clock; [None] when the [try] block
    raises (key absent, [None], unparsable, or an offset-aware value that
    cannot be subtracted from [datetime.now()]).  Keys that [curate] never
    reads (url, author, ...) are carried along unchanged and left out. *)
Record Item : Type := {
  title : field string;
  content : field string;
  impressions_likes : field Z;
  impressions_replies : field Z;
  metadata : field Metadata;
  published_at : option Z
}.

(** ** Classification *)

Record TopicScore : Type := {
  raw_score : Z;
  weighted_score : Q;
  matched_keywords : list string;
  ts_label : string
}.

(** [primary_topic_label] and [topic_details] are keys of the relevant
    result only: [None] and [[]] stand for their absence. *)
Record Classification : Type := {
  is_ai_relevant : bool;
  primary_topic : option string;
  primary_topic_label : option string;
  all_topics : list string;
  topic_details : list (string * TopicScore);
  relevance_score : Q;
  is_noise : bool;
  filter_reason : option string
}.

Definition noise_result (reason : string) : Classification :=
  {| is_ai_relevant := false;
     primary_topic := None;
     primary_topic_label := None;
     all_topics := [];
     topic_details := [];
     relevance_score := 0;
     is_noise := true;
     filter_reason := Some reason |}.

(** [(item.get(k) or "").lower()] *)
Definition lowered (f : field string) : string :=
  match get f with
  | Some s => lower s
  | None => ""
  end.

Definition item_text (item : Item) : string :=
  lowered (title item) ++ " " ++ lowered (content item).

(** The inner loop over one topic's keywords: the score and the matched
    keywords, in keyword order. *)
Fixpoint score_keywords (kws : list string) (title_l text : string)
    : Z * list string :=
  match kws with
  | [] => (0, [])
  | kw :: kws' =>
      let '(score, matched) := score_keywords kws' title_l text in
      if contains (lower kw) text then
        ((if contains (lower kw) title_l then 2 else 1) + score, kw :: matched)
      else (score, matched)
  end.

(** The outer loop: [topic_scores], in the order of [AI_TOPICS]. *)
Fixpoint score_topics (topics : list Topic) (title_l text : string)
    : list (string * TopicScore) :=
  match topics with
  | [] => []
  | t :: topics' =>
      let '(score, matched) := score_keywords (keywords t) title_l text in
      let rest := score_topics topics' title_l text in
      if 0 <? score then
        (topic_id t,
         {| raw_score := score;
            weighted_score := inject_Z score * weight t;
            matched_keywords := matched;
            ts_label := label t |}) :: rest
      else rest
  end.

(** [max(xs, key=...)] keeps the first of the largest elements. *)
Fixpoint max_by {A} (key : A -> Q) (best : A) (xs : list A) : A :=
  match xs with
  | [] => best
  | x :: xs' => max_by key (if Qltb (key best) (key x) then x else best) xs'
  end.

(** [sum(...)] starts from 0 and adds from the left. *)
Definition py_sum (xs : list Q) : Q := fold_left Qplus xs 0%Q.

Definition classify_item (item : Item) : Classification :=
  let title_l := lowered (title item) in
  let text := item_text item in
  match List.find (fun noise_kw => contains (lower noise_kw) text) NOISE_KEYWORDS with
  | Some noise_kw => noise_result ("noise_keyword: " ++ noise_kw)
  | None =>
      let topic_scores := score_topics AI_TOPICS title_l text in
      match topic_scores with
      | [] => noise_result "no_ai_keywords_matched"
      | first :: others =>
          let primary := max_by (fun x => weighted_score (snd x)) first others in
          let total_score := py_sum (map (fun x => weighted_score (snd x)) topic_scores) in
          let relevance := py_min (total_score / 10) 1 in
          {| is_ai_relevant := true;
             primary_topic := Some (fst primary);
             primary_topic_label := Some (ts_label (snd primary));
             all_topics := map fst topic_scores;
             topic_details := topic_scores;
             relevance_score := round2 relevance;
             is_noise := false;
             filter_reason := None |}
      end
  end.

(** ** Engagement quality *)

Inductive Tier : Type :=
| skip_flamewar
| trending_must_include
| high_quality
| good
| moderate
| low.

#[global] Instance Tier_eq_dec : EqDecision Tier.
Proof. solve_decision. Defined.

Definition tier_name (t : Tier) : string :=
  match t with
  | skip_flamewar => "skip_flamewar"
  | trending_must_include => "trending_must_include"
  | high_quality => "high_quality"
  | good => "good"
  | moderate => "moderate"
  | low => "low"
  end.

Definition _calculate_quality_tier (likes : Z) (ratio : Q) (is_flamewar : bool)
    (velocity : Q) : Tier :=
  if is_flamewar then skip_flamewar
  else if Qltb 20 velocity && (100 <? likes) then trending_must_include
  else if (300 <? likes) && Qltb ratio (6 # 10) then high_quality
  else if 100 <? likes then good
  else if 30 <? likes then moderate
  else low.

Record Engagement : Type := {
  engagement_ratio : Q;
  is_flamewar : bool;
  is_high_signal : bool;
  is_emerging : bool;
  discussion_depth : Q;
  velocity : Q;
  hours_old : Q;
  quality_tier : Tier
}.

(** [item.get(k, 0) or 0] *)
Definition count_or_0 (f : field Z) : Z :=
  match get_default f 0 with
  | Some n => n
  | None => 0
  end.

(** [item.get("metadata", {}).get("kids_count", 0)]; a [metadata] key
    holding [None] has no [get]. *)
Definition kids_of (item : Item) : result (option Z) :=
  match metadata item with
  | Absent => Ok (Some 0)
  | Null => Raise AttributeError
  | Val m => Ok (get_default (kids_count m) 0)
  end.

(** [replies / max(kids, 1) if kids else 1] *)
Definition depth_of (replies : Z) (kids : option Z) : Q :=
  match kids with
  | Some k => if k =? 0 then 1 else inject_Z replies / inject_Z (Z.max k 1)
  | None => 1
  end.

(** The [try] block: [(velocity, hours_old)], with [now] the reading of
    [datetime.now()] in microseconds. *)
Definition age_of (now : Z) (likes : Z) (published : option Z) : Q * Q :=
  match published with
  | Some p =>
      let total_seconds := (now - p) # 1000000 in
      let hours_old := total_seconds / 3600 in
      (inject_Z likes / py_max hours_old 1, hours_old)
  | None => (0, 24)
  end%Q.

Definition calculate_engagement_quality (now : Z) (item : Item) : result Engagement :=
  let likes := count_or_0 (impressions_likes item) in
  let replies := count_or_0 (impressions_replies item) in
  let engagement_ratio := (inject_Z replies / inject_Z (Z.max likes 1))%Q in
  let is_flamewar := Qltb (15 # 10) engagement_ratio && (100 <? replies) in
  let is_high_signal := (200 <? likes) && Qltb engagement_ratio (5 # 10) in
  let is_emerging := (50 <? likes) && (likes <? 200) && Qltb engagement_ratio (8 # 10) in
  kids ← kids_of item;
  let discussion_depth := depth_of replies kids in
  let '(velocity, hours_old) := age_of now likes (published_at item) in
  Ok {| engagement_ratio := round2 engagement_ratio;
        is_flamewar := is_flamewar;
        is_high_signal := is_high_signal;
        is_emerging := is_emerging;
        discussion_depth := round2 discussion_depth;
        velocity := round2 velocity;
        hours_old := round1 hours_old;
        quality_tier := _calculate_quality_tier likes engagement_ratio is_flamewar velocity |}.

(** ** Editorial layer *)

Record Editorial : Type := {
  one_liner : string;
  why_it_matters : string;
  audience_fit : string;
  newsletter_priority : Z
}.

(** [title] is what [item.get("title", "")] returned; [None] has no
    [lower]. *)
Definition _generate_one_liner (title : option string) (topic : string) : result string :=
  match title with
  | None => Raise AttributeError
  | Some title =>
      let title_lower := lower title in
      Ok (if contains "show hn" title_lower then
            "New " ++ lower topic ++ " project worth checking out"
          else if contains "launch hn" title_lower then
            "YC startup launching in " ++ lower topic ++ " space"
          else if contains "ask hn" title_lower then
            "Community discussion on " ++ lower topic
          else if any_in ["benchmark"; "comparison"; "vs"] title_lower then
            "Performance/comparison data for " ++ lower topic
          else if any_in ["raises"; "funding"; "acquisition"] title_lower then
            "Industry news: funding/M&A in " ++ lower topic
          else if any_in ["release"; "announce"; "introducing"] title_lower then
            "New release or announcement in " ++ lower topic
          else if any_in ["tutorial"; "guide"; "how to"] title_lower then
            "Learning resource for " ++ lower topic
          else topic ++ " insight worth reading")
  end.

(** [xs.append(x)] under a condition *)
Definition append_if (b : bool) (x : string) (xs : list string) : list string :=
  if b then (xs ++ [x])%list else xs.

(** [likes > 300] compares [None] with an int when the key holds [None];
    [x in primary] needs [primary] to be a string. *)
Definition _generate_why_matters (item : Item) (classification : Classification)
    (engagement : Engagement) : result string :=
  let likes := get_default (impressions_likes item) 0 in
  let velocity := velocity engagement in
  let primary := primary_topic classification in
  let signals := append_if (Qltb 20 velocity) "rapidly gaining attention" [] in
  match likes with
  | None => Raise TypeError
  | Some likes =>
      let signals := append_if (300 <? likes) "highly upvoted by HN community" signals in
      let signals := append_if (is_high_signal engagement) "quality discussion" signals in
      match primary with
      | None => Raise TypeError
      | Some primary =>
          let signals := append_if (contains "llm" primary || contains "ml_research" primary)
                           "directly relevant to AI practitioners" signals in
          let signals := append_if (contains "ai_infra" primary)
                           "infrastructure implications for AI deployment" signals in
          let signals := append_if (contains "ai_product" primary)
                           "commercial AI application" signals in
          let signals := match signals with
                         | [] => ["worth monitoring"]
                         | _ => signals
                         end in
          Ok (join "; " (firstn 2 signals))
      end
  end.

Definition str_eqb (a b : string) : bool := String.eqb a b.

Definition _determine_audience (classification : Classification) : string :=
  match primary_topic classification with
  | Some topic =>
      if str_eqb topic "llm" || str_eqb topic "ml_research" then "AI engineers & researchers"
      else if str_eqb topic "ai_infra" then "ML platform engineers"
      else if str_eqb topic "ai_product" then "Product managers & founders"
      else if str_eqb topic "ai_ethics" then "AI policy & safety researchers"
      else if str_eqb topic "developer_tools" then "Software developers"
      else if str_eqb topic "tech_industry" then "Tech industry watchers"
      else "General tech audience"
  | None => "General tech audience"
  end.

Definition tier_eqb (a b : Tier) : bool := bool_decide (a = b).

Definition _calculate_priority (classification : Classification)
    (engagement : Engagement) : Z :=
  let relevance := relevance_score classification in
  let quality := quality_tier engagement in
  if tier_eqb quality trending_must_include && Qltb (6 # 10) relevance then 1
  else if tier_eqb quality high_quality && Qltb (5 # 10) relevance then 2
  else if tier_eqb quality good || tier_eqb quality high_quality then 3
  else if Qltb (3 # 10) relevance then 4
  else 5.

Definition generate_editorial (item : Item) (classification : Classification)
    (engagement : Engagement) : result Editorial :=
  let title := get_default (title item) "" in
  let primary_topic :=
    match primary_topic_label classification with
    | Some l => l
    | None => "Tech"
    end in
  one_liner ← _generate_one_liner title primary_topic;
  why_matters ← _generate_why_matters item classification engagement;
  let audience := _determine_audience classification in
  Ok {| one_liner := one_liner;
        why_it_matters := why_matters;
        audience_fit := audience;
        newsletter_priority := _calculate_priority classification engagement |}.

(** ** Curated items, stable sorting and theme grouping *)

Record CuratedItem : Type := {
  raw : Item;
  classification : Classification;
  engagement_quality : Engagement;
  editorial : Editorial
}.

(** [list.sort(key=...)] is a stable sort that compares keys with [<]: it
    is embedded as the stable insertion sort, each element going in front
    of the first later element that is not smaller than it. *)
Section StableSort.
Context {A : Type} (ltb : A -> A -> bool).

Fixpoint insert_stable (x : A) (l : list A) : list A :=
  match l with
  | [] => [x]
  | y :: l' => if ltb y x then y :: insert_stable x l' else x :: y :: l'
  end.

Fixpoint sort_stable (l : list A) : list A :=
  match l with
  | [] => []
  | x :: l' => insert_stable x (sort_stable l')
  end.

(** [x] is not after [y]: [y < x] does not hold. *)
Definition not_after (x y : A) : Prop := ltb y x = false.
End StableSort.

(** The section keys of [themes]; in the source each is a string that
    starts with a pictograph. *)
Inductive Theme : Type :=
| AI_and_LLMs
| AI_Infrastructure
| AI_Products_and_Startups
| AI_Ethics_and_Policy
| Developer_Tools
| Tech_Industry_News
| Other_Notable.

#[global] Instance Theme_eq_dec : EqDecision Theme.
Proof. solve_decision. Defined.

Definition theme_of (item : CuratedItem) : Theme :=
  match primary_topic (classification item) with
  | Some topic =>
      if str_eqb topic "llm" || str_eqb topic "ml_research" then AI_and_LLMs
      else if str_eqb topic "ai_infra" then AI_Infrastructure
      else if str_eqb topic "ai_product" then AI_Products_and_Startups
      else if str_eqb topic "ai_ethics" then AI_Ethics_and_Policy
      else if str_eqb topic "developer_tools" then Developer_Tools
      else if str_eqb topic "tech_industry" then Tech_Industry_News
      else Other_Notable
  | None => Other_Notable
  end.

(** [themes[theme].append(item)] on a dict that keeps insertion order *)
Fixpoint theme_append (theme : Theme) (item : CuratedItem)
    (themes : list (Theme * list CuratedItem)) : list (Theme * list CuratedItem) :=
  match themes with
  | [] => [(theme, [item])]
  | (t, items) :: themes' =>
      if bool_decide (t = theme) then (t, (items ++ [item])%list) :: themes'
      else (t, items) :: theme_append theme item themes'
  end.

Definition priority_of (item : CuratedItem) : Z :=
  newsletter_priority (editorial item).

Definition group_by_theme (items : list CuratedItem) : list (Theme * list CuratedItem) :=
  let themes := fold_left (fun themes item => theme_append (theme_of item) item themes) items [] in
  map (fun '(theme, xs) =>
         (theme, sort_stable (fun x y => priority_of x <? priority_of y) xs))
      themes.

(** ** The curation pipeline *)

Record Config : Type := {
  min_relevance : Q;
  pool_size : Z;
  publish_count : Z
}.

(** The reason of a hidden low-quality item is the f-string
    [low_quality, {hours_old:.1f}h old, topic '{topic}' has {n} items];
    it is kept as the three values it prints. *)
Inductive Reason : Type :=
| ReasonText (s : string)
| ReasonLowQuality (hours : Q) (topic : option string) (count : nat).

(** An entry of a [filtered_out] bucket: the [title] key is always there
    (it may hold [None]); the [reason] key may be [Absent]. *)
Record Entry : Type := {
  entry_title : option string;
  entry_reason : field Reason
}.

Record Filtered : Type := {
  noise : list Entry;
  low_relevance : list Entry;
  flamewar : list Entry;
  low_quality_hidden : list Entry
}.

Record FunnelState : Type := {
  curated : list CuratedItem;
  filtered_out : Filtered
}.

Definition add_noise (e : Entry) (st : FunnelState) : FunnelState :=
  let f := filtered_out st in
  {| curated := curated st;
     filtered_out := {| noise := (noise f ++ [e])%list;
                        low_relevance := low_relevance f;
                        flamewar := flamewar f;
                        low_quality_hidden := low_quality_hidden f |} |}.

Definition add_flamewar (e : Entry) (st : FunnelState) : FunnelState :=
  let f := filtered_out st in
  {| curated := curated st;
     filtered_out := {| noise := noise f;
                        low_relevance := low_relevance f;
                        flamewar := (flamewar f ++ [e])%list;
                        low_quality_hidden := low_quality_hidden f |} |}.

Definition add_low_relevance (e : Entry) (st : FunnelState) : FunnelState :=
  let f := filtered_out st in
  {| curated := curated st;
     filtered_out := {| noise := noise f;
                        low_relevance := (low_relevance f ++ [e])%list;
                        flamewar := flamewar f;
                        low_quality_hidden := low_quality_hidden f |} |}.

Definition add_curated (c : CuratedItem) (st : FunnelState) : FunnelState :=
  {| curated := (curated st ++ [c])%list; filtered_out := filtered_out st |}.

Definition reason_value (r : option string) : field Reason :=
  match r with
  | Some s => Val (ReasonText s)
  | None => Null
  end.

(** The body of the first loop of [curate], steps 1 to 6. *)
Definition funnel_body (cfg : Config) (now : Z) (item : Item) (st : FunnelState)
    : result FunnelState :=
  let cls := classify_item item in
  if is_noise cls then
    Ok (add_noise {| entry_title := get (title item);
                     entry_reason := reason_value (filter_reason cls) |} st)
  else
    engagement ← calculate_engagement_quality now item;
    if tier_eqb (quality_tier engagement) skip_flamewar then
      Ok (add_flamewar {| entry_title := get (title item); entry_reason := Absent |} st)
    else if Qltb (relevance_score cls) (min_relevance cfg) then
      Ok (add_low_relevance {| entry_title := get (title item); entry_reason := Absent |} st)
    else
      ed ← generate_editorial item cls engagement;
      Ok (add_curated {| raw := item;
                         classification := cls;
                         engagement_quality := engagement;
                         editorial := ed |} st).

(** The first loop; [clock i] is the reading of [datetime.now()] while
    record [i] of the batch is handled. *)
Fixpoint funnel (cfg : Config) (clock : nat -> Z) (i : nat) (items : list Item)
    (st : FunnelState) : result FunnelState :=
  match items with
  | [] => Ok st
  | item :: items' =>
      st' ← funnel_body cfg (clock i) item st;
      funnel cfg clock (S i) items' st'
  end.

(** [sort_key] returns the tuple [(tier, priority, -engagement_score)]. *)
Definition sort_key (item : CuratedItem) : Z * Z * Q :=
  let quality := quality_tier (engagement_quality item) in
  let priority := newsletter_priority (editorial item) in
  let velocity := velocity (engagement_quality item) in
  let depth := discussion_depth (engagement_quality item) in
  let tier := if tier_eqb quality trending_must_include then 0 else 1 in
  let engagement_score := (velocity * depth)%Q in
  (tier, priority, (- engagement_score)%Q).

(** [<] on the key tuples: the first differing component decides. *)
Definition key_ltb (a b : Z * Z * Q) : bool :=
  let '(t1, p1, e1) := a in
  let '(t2, p2, e2) := b in
  if negb (t1 =? t2) then t1 <? t2
  else if negb (p1 =? p2) then p1 <? p2
  else Qltb e1 e2.

Definition sort_curated (items : list CuratedItem) : list CuratedItem :=
  sort_stable (fun x y => key_ltb (sort_key x) (sort_key y)) items.

(** [xs[:n]]: a negative [n] counts from the end. *)
Definition slice_to {A} (n : Z) (xs : list A) : list A :=
  if 0 <=? n then firstn (Z.to_nat n) xs
  else firstn (length xs - Z.to_nat (- n)) xs.

Record ScanState : Type := {
  published : list CuratedItem;
  theme_counts : gmap (option string) nat;
  hidden : list Entry
}.

Definition count_of (counts : gmap (option string) nat) (topic : option string) : nat :=
  default 0%nat (counts !! topic).

Definition keeps_low (st : ScanState) (item : CuratedItem) : bool :=
  let hours_old := hours_old (engagement_quality item) in
  let topic := primary_topic (classification item) in
  let is_fresh := Qltb hours_old 4 in
  let fills_gap := (count_of (theme_counts st) topic =? 0)%nat in
  is_fresh || fills_gap.

Definition hide (st : ScanState) (item : CuratedItem) : ScanState :=
  let hours_old := hours_old (engagement_quality item) in
  let topic := primary_topic (classification item) in
  {| published := published st;
     theme_counts := theme_counts st;
     hidden := (hidden st ++
       [{| entry_title := get (title (raw item));
           entry_reason := Val (ReasonLowQuality hours_old topic
                                  (count_of (theme_counts st) topic)) |}])%list |}.

Definition admit_item (st : ScanState) (item : CuratedItem) : ScanState :=
  let topic := primary_topic (classification item) in
  {| published := (published st ++ [item])%list;
     theme_counts := <[topic := S (count_of (theme_counts st) topic)]> (theme_counts st);
     hidden := hidden st |}.

(** The second loop of [curate], with its [continue] and [break]. *)
Fixpoint publish_scan (publish_count : Z) (pool : list CuratedItem) (st : ScanState)
    : ScanState :=
  match pool with
  | [] => st
  | item :: pool' =>
      if tier_eqb (quality_tier (engagement_quality item)) low && negb (keeps_low st item)
      then publish_scan publish_count pool' (hide st item)
      else
        let st' := admit_item st item in
        if publish_count <=? Z.of_nat (length (published st')) then st'
        else publish_scan publish_count pool' st'
  end.

Module Stats.
Record t : Type := {
  input_items : nat;
  pool_items : nat;
  published_items : nat;
  filtered_noise : nat;
  filtered_low_relevance : nat;
  filtered_flamewar : nat;
  filtered_low_quality : nat;
  themes : list (Theme * nat)
}.
End Stats.

Record Output : Type := {
  schema_version : string;
  curated_at : Z;
  source : string;
  curation_config : Config;
  stats : Stats.t;
  themes : list (Theme * list CuratedItem);
  published_items : list CuratedItem;
  pool_items : list CuratedItem;
  out_filtered : Filtered
}.

Definition empty_funnel : FunnelState :=
  {| curated := [];
     filtered_out := {| noise := []; low_relevance := []; flamewar := [];
                        low_quality_hidden := [] |} |}.

Definition empty_scan : ScanState :=
  {| published := []; theme_counts := ∅; hidden := [] |}.

(** [NewsletterCurator.curate]; reading number [len(raw_items)] of the
    clock is the one stored in [curated_at]. *)
Definition curate (cfg : Config) (clock : nat -> Z) (raw_items : list Item)
    : result Output :=
  st ← funnel cfg clock 0 raw_items empty_funnel;
  let sorted := sort_curated (curated st) in
  let pool := slice_to (pool_size cfg) sorted in
  let scan := publish_scan (publish_count cfg) pool empty_scan in
  let themes := group_by_theme (published scan) in
  let f := filtered_out st in
  let filtered := {| noise := noise f;
                     low_relevance := low_relevance f;
                     flamewar := flamewar f;
                     low_quality_hidden := hidden scan |} in
  Ok {| schema_version := "3.1";
        curated_at := clock (length raw_items);
        source := "hackernews";
        curation_config := cfg;
        stats := {| Stats.input_items := length raw_items;
                    Stats.pool_items := length pool;
                    Stats.published_items := length (published scan);
                    Stats.filtered_noise := length (noise filtered);
                    Stats.filtered_low_relevance := length (low_relevance filtered);
                    Stats.filtered_flamewar := length (flamewar filtered);
                    Stats.filtered_low_quality := length (low_quality_hidden filtered);
                    Stats.themes := map (fun '(theme, xs) => (theme, length xs)) themes |};
        themes := themes;
        published_items := published scan;
        pool_items := pool;
        out_filtered := filtered |}.

(** * The classifier's arithmetic in binary64

    [classify_item] above reads the float arithmetic of the relevance
    score as exact.  Here the same arithmetic is done in IEEE binary64, as
    Python does it: a double is kept as the rational it denotes, and every
    operation rounds its exact result to the nearest double, ties to the
    even mantissa.  Overflow to infinity is left out: the scores are sums of
    at most a few hundred small products. *)

(** [2 ** e] *)
Definition pow2 (e : Z) : Q :=
  if 0 <=? e then inject_Z (2 ^ e) else 1 # Z.to_pos (2 ^ (- e)).

(** For a positive [x], the [e] with [2 ** e <= x < 2 ** (e + 1)]. *)
Definition floor_log2 (x : Q) : Z :=
  let k := Z.log2 (Qnum x) - Z.log2 (Zpos (Qden x)) in
  if Qle_bool (pow2 k) x then k else k - 1.

(** The double nearest to [x]: 53 bits of mantissa, the exponent of the
    last bit not below -1074 (subnormal range). *)
Definition binary64 (x : Q) : Q :=
  if Qeq_bool x 0 then 0%Q
  else
    let a := if Qle_bool 0 x then x else (- x)%Q in
    let e := floor_log2 a in
    let q := Z.max (e - 52) (-1074) in
    let m := round_half_even (a / pow2 q) in
    let r := Qred (inject_Z m * pow2 q) in
    if Qle_bool 0 x then r else (- r)%Q.

(** [float(n)], [x + y], [x * y] and [x / y] on doubles *)
Definition of_int (n : Z) : Q := binary64 (inject_Z n).
Definition fadd (x y : Q) : Q := binary64 (x + y).
Definition fmul (x y : Q) : Q := binary64 (x * y).
Definition fdiv (x y : Q) : Q := binary64 (x / y).

(** [sum(...)] of doubles: from 0, adding from the left, each addition
    rounded (CPython up to 3.11; from 3.12 on, [sum] also carries a
    correction term for floats, which is not modelled). *)
Definition float_sum (xs : list Q) : Q := fold_left fadd xs 0%Q.

(** [round(x, 2)] on a double [x]: the decimal nearest to the double, ties
    to even, then the double nearest to that decimal. *)
Definition py_round2 (x : Q) : Q := binary64 (round_half_even (x * 100) # 100).

(** [score * topic_data["weight"]]: the int is converted, the weight is
    the double its literal denotes. *)
Definition weighted_f64 (score : Z) (w : Q) : Q := fmul (of_int score) (binary64 w).

(** The outer loop of [classify_item], with the weighted score a double. *)
Fixpoint score_topics_f64 (topics : list Topic) (title_l text : string)
    : list (string * TopicScore) :=
  match topics with
  | [] => []
  | t :: topics' =>
      let '(score, matched) := score_keywords (keywords t) title_l text in
      let rest := score_topics_f64 topics' title_l text in
      if 0 <? score then
        (topic_id t,
         {| raw_score := score;
            weighted_score := weighted_f64 score (weight t);
            matched_keywords := matched;
            ts_label := label t |}) :: rest
      else rest
  end.

(** [classify_item] with its floats in binary64. *)
Definition classify_item_f64 (item : Item) : Classification :=
  let title_l := lowered (title item) in
  let text := item_text item in
  match List.find (fun noise_kw => contains (lower noise_kw) text) NOISE_KEYWORDS with
  | Some noise_kw => noise_result ("noise_keyword: " ++ noise_kw)
  | None =>
      let topic_scores := score_topics_f64 AI_TOPICS title_l text in
      match topic_scores with
      | [] => noise_result "no_ai_keywords_matched"
      | first :: others =>
          let primary := max_by (fun x => weighted_score (snd x)) first others in
          let total_score := float_sum (map (fun x => weighted_score (snd x)) topic_scores) in
          let relevance := py_min (fdiv total_score (of_int 10)) 1 in
          {| is_ai_relevant := true;
             primary_topic := Some (fst primary);
             primary_topic_label := Some (ts_label (snd primary));
             all_topics := map fst topic_scores;
             topic_details := topic_scores;
             relevance_score := py_round2 relevance;
             is_noise := false;
             filter_reason := None |}
      end
  end.

(** * The scraper's deduplication

    [scrape_for_newsletter] in [hn_scraper.py] fetches six sections and
    merges them into [all_items], a dict from [source_id] to item that keeps
    insertion order.  The fetches are input here: a list of section keys,
    each with the items fetched for it. *)

(** A [RawItem], with the fields the merge reads or writes: [source_id],
    the [sections] key of its metadata ([None] when the key is absent, as
    on a freshly fetched item), and the rest of the record. *)
Record RawItem : Type := {
  source_id : string;
  sections : option (list string);
  record : Item
}.

Definition set_sections (l : list string) (it : RawItem) : RawItem :=
  {| source_id := source_id it; sections := Some l; record := record it |}.

(** [k in all_items] *)
Definition dict_mem (k : string) (d : list (string * RawItem)) : bool :=
  existsb (fun kv => String.eqb (fst kv) k) d.

(** The [else] branch on the stored item: read its sections (or []), and
    append the section key unless it is there. *)
Definition with_section (section_key : string) (it : RawItem) : RawItem :=
  let existing_sections := default [] (sections it) in
  if existsb (String.eqb section_key) existing_sections then it
  else set_sections (existing_sections ++ [section_key])%list it.

(** [all_items[k] = f(all_items[k])] for a key that is there *)
Fixpoint dict_update (k : string) (f : RawItem -> RawItem) (d : list (string * RawItem))
    : list (string * RawItem) :=
  match d with
  | [] => []
  | (k', it) :: d' =>
      if String.eqb k' k then (k', f it) :: d' else (k', it) :: dict_update k f d'
  end.

(** The body of the inner loop. *)
Definition merge_item (section_key : string) (all_items : list (string * RawItem))
    (item : RawItem) : list (string * RawItem) :=
  if negb (dict_mem (source_id item) all_items) then
    (all_items ++ [(source_id item, set_sections [section_key] item)])%list
  else dict_update (source_id item) (with_section section_key) all_items.

(** The two nested loops, over the sections in order and over the items of
    each section in order. *)
Definition merge_sections (fetched : list (string * list RawItem))
    : list (string * RawItem) :=
  fold_left (fun all_items '(section_key, items) =>
               fold_left (merge_item section_key) items all_items)
            fetched [].

(** [unique_items = list(all_items.values())] *)
Definition unique_items (fetched : list (string * list RawItem)) : list RawItem :=
  map snd (merge_sections fetched).

(** Every fetched item, as the pair of its section and its id, in fetch
    order. *)
Definition occurrences (fetched : list (string * list RawItem)) : list (string * string) :=
  concat (map (fun '(section_key, items) =>
                 map (fun it => (section_key, source_id it)) items) fetched).

(** [all_items] after the occurrences [seen]: distinct keys, each the id
    of its item; an id is a key exactly when it was seen; and each item
    lists, without repetition, exactly the sections it was seen in. *)
Definition merged (seen : list (string * string)) (d : list (string * RawItem)) : Prop :=
  List.NoDup (map fst d)
  /\ (forall k, In k (map fst d) <-> exists sec, In (sec, k) seen)
  /\ (forall k it, In (k, it) d ->
        source_id it = k
        /\ exists l, sections it = Some l /\ List.NoDup l
                     /\ forall sec, In sec l <-> In (sec, k) seen).

(** Every fetched item in fetch order, and the first of them with a given
    id. *)
Definition fetched_items (fetched : list (string * list RawItem)) : list RawItem :=
  concat (map snd fetched).

Definition first_with_id (k : string) (items : list RawItem) : option RawItem :=
  List.find (fun x => String.eqb (source_id x) k) items.

(** [all_items] holds, for each id met among [processed], the record of
    the first item met with that id. *)
Definition first_kept (processed : list RawItem) (d : list (string * RawItem)) : Prop :=
  (forall x, In x processed -> In (source_id x) (map fst d))
  /\ (forall k it, In (k, it) d ->
        exists x, first_with_id k processed = Some x /\ record it = record x).

(** * The specification's reading

    Definitions written after the words of the specification, to be
    compared with the code above. *)

(** Topic scoring: a keyword phrase found in the combined text adds 2
    points when it also occurs in the title alone, else 1 point. *)
Definition spec_keyword_points (title_l text kw : string) : Z :=
  if contains kw text then (if contains kw title_l then 2 else 1) else 0.

Definition spec_raw_score (item : Item) (t : Topic) : Z :=
  fold_right Z.add 0
    (map (spec_keyword_points (lowered (title item)) (item_text item)) (keywords t)).

(** weighted_score = raw_score times the topic weight *)
Definition spec_weighted_score (item : Item) (t : Topic) : Q :=
  inject_Z (spec_raw_score item t) * weight t.

Definition Qsum (xs : list Q) : Q := fold_right Qplus 0%Q xs.


(** The quality-tier decision table, one row per rule, in priority
    order; the first row whose condition holds gives the tier. *)
Definition tier_rules (likes : Z) (ratio : Q) (flamewar : bool) (vel : Q)
    : list (bool * Tier) :=
  [ (flamewar, skip_flamewar);
    (Qltb 20 vel && (100 <? likes), trending_must_include);
    ((300 <? likes) && Qltb ratio (6 # 10), high_quality);
    (100 <? likes, good);
    (30 <? likes, moderate) ].

Definition first_match (rules : list (bool * Tier)) (otherwise : Tier) : Tier :=
  match List.find fst rules with
  | Some (_, t) => t
  | None => otherwise
  end.

Definition spec_quality_tier (likes : Z) (ratio : Q) (flamewar : bool) (vel : Q) : Tier :=
  first_match (tier_rules likes ratio flamewar vel) low.

(** engagement_ratio = replies / max(likes, 1), not rounded *)
Definition spec_engagement_ratio (item : Item) : Q :=
  inject_Z (count_or_0 (impressions_replies item))
  / inject_Z (Z.max (count_or_0 (impressions_likes item)) 1).

(** velocity = likes / max(hours_old, 1), not rounded; 0 without a usable
    timestamp *)
Definition spec_velocity (now : Z) (item : Item) : Q :=
  match published_at item with
  | Some p =>
      inject_Z (count_or_0 (impressions_likes item))
      / py_max (((now - p) # 1000000) / 3600) 1
  | None => 0
  end.






(** An entry holds a reason when its [reason] key is there with a value. *)
Definition has_reason (e : Entry) : Prop := exists r, entry_reason e = Val r.

Definition every_entry_has_reason (f : Filtered) : Prop :=
  List.Forall has_reason (noise f)
  /\ List.Forall has_reason (low_relevance f)
  /\ List.Forall has_reason (flamewar f)
  /\ List.Forall has_reason (low_quality_hidden f).

Definition title_only (e : Entry) : Prop := entry_reason e = Absent.

(** Two outputs that agree on every key but [curated_at]. *)
Definition same_except_curated_at (a b : Output) : Prop :=
  schema_version a = schema_version b
  /\ source a = source b
  /\ curation_config a = curation_config b
  /\ stats a = stats b
  /\ themes a = themes b
  /\ published_items a = published_items b
  /\ pool_items a = pool_items b
  /\ out_filtered a = out_filtered b.

(** Two runs with the same outcome: the same exception, or outputs equal
    up to [curated_at]. *)
Definition same_outcome (r1 r2 : result Output) : Prop :=
  match r1, r2 with
  | Ok a, Ok b => same_except_curated_at a b
  | Raise e1, Raise e2 => e1 = e2
  | _, _ => False
  end.

(** A curated item that came through the three funnel filters under a
    configuration. *)
Definition survivor (cfg : Config) (c : CuratedItem) : Prop :=
  classification c = classify_item (raw c)
  /\ is_noise (classification c) = false
  /\ quality_tier (engagement_quality c) <> skip_flamewar
  /\ ~ (relevance_score (classification c) < min_relevance cfg)%Q.

(** The number of records the first loop has dealt with. *)
Definition funnel_total (st : FunnelState) : nat :=
  (length (noise (filtered_out st)) + length (low_relevance (filtered_out st))
   + length (flamewar (filtered_out st)) + length (curated st))%nat.

(** The reasons the first loop stores: one per noise entry, none in the
    flamewar and low_relevance entries. *)
Definition funnel_buckets_ok (st : FunnelState) : Prop :=
  List.Forall has_reason (noise (filtered_out st))
  /\ List.Forall title_only (flamewar (filtered_out st))
  /\ List.Forall title_only (low_relevance (filtered_out st)).

(** What every entry of [topic_scores] records about its topic. *)
Definition scored_from (text : string) (t : Topic) (x : string * TopicScore) : Prop :=
  fst x = topic_id t
  /\ ts_label (snd x) = label t
  /\ weighted_score (snd x) = (inject_Z (raw_score (snd x)) * weight t)%Q
  /\ sublist (matched_keywords (snd x)) (keywords t)
  /\ 0 < raw_score (snd x)
  /\ Z.of_nat (length (matched_keywords (snd x))) <= raw_score (snd x)
     <= 2 * Z.of_nat (length (matched_keywords (snd x)))
  /\ List.Forall (fun kw => contains (lower kw) text = true) (matched_keywords (snd x)).

(** The phrases [_generate_why_matters] can put into its answer. *)
Definition signal_phrases : list string :=
  [ "rapidly gaining attention";
    "highly upvoted by HN community";
    "quality discussion";
    "directly relevant to AI practitioners";
    "infrastructure implications for AI deployment";
    "commercial AI application";
    "worth monitoring" ].

(** A record none of whose keys read by the editorial layer or by the
    engagement analyzer holds [None]. *)
Definition clean_record (item : Item) : Prop :=
  title item <> Null /\ impressions_likes item <> Null /\ metadata item <> Null.

(** A curated item as the first loop builds it from a record of the
    batch: the record's classification, its engagement analysis at some
    clock reading, and the editorial made from the two. *)
Definition built_from (raw_items : list Item) (c : CuratedItem) : Prop :=
  In (raw c) raw_items
  /\ classification c = classify_item (raw c)
  /\ (exists now, calculate_engagement_quality now (raw c) = Ok (engagement_quality c))
  /\ generate_editorial (raw c) (classification c) (engagement_quality c)
     = Ok (editorial c).

(** What the three filters guarantee about an item they let through. *)
Definition publishable (cfg : Config) (c : CuratedItem) : Prop :=
  is_noise (classification c) = false
  /\ is_ai_relevant (classification c) = true
  /\ is_flamewar (engagement_quality c) = false
  /\ quality_tier (engagement_quality c) <> skip_flamewar
  /\ (min_relevance cfg <= relevance_score (classification c))%Q
  /\ 1 <= newsletter_priority (editorial c) <= 5.

(** The number of items of a list whose primary topic is [t]. *)
Definition topic_count (t : option string) (l : list CuratedItem) : nat :=
  length (List.filter (fun c => bool_decide (primary_topic (classification c) = t)) l).

(** A low-tier item that is not fresh: 4 hours old or more. *)
Definition stale_low (c : CuratedItem) : Prop :=
  quality_tier (engagement_quality c) = low
  /\ ~ (hours_old (engagement_quality c) < 4)%Q.

(** The state of the publish scan agrees with what it has published: each
    topic counter is the number of published items of the topic, and every
    published stale low-tier item was the first of its topic. *)
Definition scan_consistent (st : ScanState) : Prop :=
  (forall t, count_of (theme_counts st) t = topic_count t (published st))
  /\ (forall before c after,
        published st = (before ++ c :: after)%list -> stale_low c ->
        topic_count (primary_topic (classification c)) before = 0%nat).

(** The survivors of the three filters, counted from the statistics. *)
Definition stats_survivors (s : Stats.t) : nat :=
  (Stats.input_items s - Stats.filtered_noise s - Stats.filtered_low_relevance s
   - Stats.filtered_flamewar s)%nat.

(** Membership of an item in a theme, and items of one priority. *)
Definition in_theme (t : Theme) (c : CuratedItem) : bool := bool_decide (theme_of c = t).

Definition same_priority (p : Z) (c : CuratedItem) : bool := priority_of c =? p.

(** The theme lists built so far hold, under distinct keys, the items of
    [l] of each theme that occurs in [l], in the order of [l]. *)
Definition grouped (l : list CuratedItem) (acc : list (Theme * list CuratedItem)) : Prop :=
  List.NoDup (map fst acc)
  /\ (forall t xs, In (t, xs) acc -> xs <> [] /\ xs = List.filter (in_theme t) l)
  /\ (forall c, In c l -> In (theme_of c) (map fst acc)).

(** A record with its title and body in lower case. *)
Definition lower_field (f : field string) : field string :=
  match f with
  | Val s => Val (lower s)
  | Absent => Absent
  | Null => Null
  end.

Definition lower_item (item : Item) : Item :=
  {| title := lower_field (title item);
     content := lower_field (content item);
     impressions_likes := impressions_likes item;
     impressions_replies := impressions_replies item;
     metadata := metadata item;
     published_at := published_at item |}.

(** The audience named for the records of each newsletter section. *)
Definition audience_of_theme (t : Theme) : string :=
  match t with
  | AI_and_LLMs => "AI engineers & researchers"
  | AI_Infrastructure => "ML platform engineers"
  | AI_Products_and_Startups => "Product managers & founders"
  | AI_Ethics_and_Policy => "AI policy & safety researchers"
  | Developer_Tools => "Software developers"
  | Tech_Industry_News => "Tech industry watchers"
  | Other_Notable => "General tech audience"
  end.

(** * Sample records *)

Definition sample (t : string) (likes replies : Z) (published : option Z) : Item :=
  {| title := Val t;
     content := Absent;
     impressions_likes := Val likes;
     impressions_replies := Val replies;
     metadata := Absent;
     published_at := published |}.

(** A title with a noise phrase next to strong topic keywords. *)
Definition grammar_item : Item :=
  sample "New grammar rules for GPT and Claude chat" 500 10 None.

Definition benchmark_item : Item :=
  sample "Benchmarking GPT-4 vs Claude" 350 80 None.

(** 596 replies on 1000 likes: the ratio 0.596 rounds to 0.6. *)
Definition near_threshold_item : Item := sample "Vector search" 1000 596 None.

(** A survivor as [curate] builds it from a record with 5 likes and no
    timestamp whose title names one LLM keyword: low tier, a day old. *)
Definition low_llm_item (t : string) : CuratedItem :=
  let item := sample t 5 0 None in
  {| raw := item;
     classification := classify_item item;
     engagement_quality :=
       {| engagement_ratio := 0 # 100; is_flamewar := false; is_high_signal := false;
          is_emerging := false; discussion_depth := 100 # 100; velocity := 0 # 100;
          hours_old := 240 # 10; quality_tier := low |};
     editorial :=
       {| one_liner := "Large Language Models insight worth reading";
          why_it_matters := "directly relevant to AI practitioners";
          audience_fit := "AI engineers & researchers";
          newsletter_priority := 5 |} |}.

Definition default_config : Config :=
  {| min_relevance := 2 # 10; pool_size := 25; publish_count := 8 |}.

(** The configuration with [publish_count] set to 0, as [--publish 0]
    gives it. *)
Definition publish_nothing_config : Config :=
  {| min_relevance := 2 # 10; pool_size := 25; publish_count := 0 |}.

(** A relevant record whose [impressions_likes] key holds [None]. *)
Definition null_likes_item : Item :=
  {| title := Val "GPT-4, Claude and the LLM race";
     content := Absent;
     impressions_likes := Null;
     impressions_replies := Val 3;
     metadata := Absent;
     published_at := None |}.

(** A relevant record whose [title] key holds [None]. *)
Definition null_title_item : Item :=
  {| title := Null;
     content := Val "GPT-4, Claude and the LLM race";
     impressions_likes := Val 12;
     impressions_replies := Val 3;
     metadata := Absent;
     published_at := None |}.

(** A relevant record whose [metadata] key holds [None]. *)
Definition null_metadata_item : Item :=
  {| title := Val "GPT-4, Claude and the LLM race";
     content := Absent;
     impressions_likes := Val 12;
     impressions_replies := Val 3;
     metadata := Null;
     published_at := None |}.

(** 200 replies on 10 likes. *)
Definition flamewar_item : Item := sample "GPT flamewar thread" 10 200 None.

(** One topic keyword in the body only: relevance 0.1. *)
Definition faint_item : Item :=
  {| title := Val "Weekend notes";
     content := Val "a short remark on gpt";
     impressions_likes := Val 40;
     impressions_replies := Val 2;
     metadata := Absent;
     published_at := None |}.

(** 150 likes, published at instant 0 of the clock. *)
Definition timed_item : Item := sample "GPT-4 and Claude benchmark" 150 10 (Some 0).

Definition one_hour : Z := 3600 * 1000000.

(** A pool of one. *)
Definition pool_of_one_config : Config :=
  {| min_relevance := 2 # 10; pool_size := 1; publish_count := 8 |}.

(** A record with no title and no body at all. *)
Definition blank_item : Item :=
  {| title := Absent;
     content := Null;
     impressions_likes := Absent;
     impressions_replies := Absent;
     metadata := Absent;
     published_at := None |}.

(** A record whose [metadata] holds a dict with 4 direct replies. *)
Definition threaded_item : Item :=
  {| title := Val "Vector databases compared";
     content := Absent;
     impressions_likes := Val 240;
     impressions_replies := Val 36;
     metadata := Val {| kids_count := Val 4 |};
     published_at := Some 0 |}.

(** Three sections fetched with an overlap: story 101 is in all of them. *)
Definition fetched_sample : list (string * list RawItem) :=
  let story (id : string) (t : string) :=
    {| source_id := id; sections := None; record := sample t 10 1 None |} in
  [ ("top_stories", [story "101" "GPT-5 released"; story "102" "A new SQL engine"]);
    ("best_stories", [story "101" "GPT-5 released (updated)"; story "103" "Rust 2.0"]);
    ("new_stories", [story "101" "GPT-5 released"; story "101" "GPT-5 released"]) ].

(** A title in capitals. *)
Definition shouting_item : Item := sample "NEW GPT-5 BENCHMARK vs CLAUDE" 120 14 None.

(** Two records whose exact relevance is a decimal tie: 0.175 and 0.305. *)
Definition tie_item : Item :=
  {| title := Val "x";
     content := Val "attention ai tool";
     impressions_likes := Absent;
     impressions_replies := Absent;
     metadata := Absent;
     published_at := None |}.

Definition alignment_item : Item :=
  {| title := Val "Alignment";
     content := Val "ai tool sdk";
     impressions_likes := Absent;
     impressions_replies := Absent;
     metadata := Absent;
     published_at := None |}.

(** * Properties *)

(** ** Helper facts on rationals *)

Lemma Qltb_lt (x y : Q) : Qltb x y = true <-> (x < y)%Q.
Proof.
  unfold Qltb. rewrite negb_true_iff, <- not_true_iff_false, Qle_bool_iff.
  split; [apply Qnot_le_lt | apply Qlt_not_le].
Qed.

Lemma Qltb_ge (x y : Q) : Qltb x y = false <-> (y <= x)%Q.
Proof.
  unfold Qltb. rewrite negb_false_iff. apply Qle_bool_iff.
Qed.

Lemma round_half_even_bounds (x : Q) (n : Z) :
  (0 <= x)%Q -> (x <= inject_Z n)%Q -> 0 <= round_half_even x <= n.
Proof.
  intros H0 Hn. unfold round_half_even.
  assert (Hf0 : 0 <= Qfloor x).
  { change 0 with (Qfloor (inject_Z 0)). apply Qfloor_resp_le. exact H0. }
  assert (Hfn : Qfloor x <= n).
  { rewrite <- (Qfloor_Z n). now apply Qfloor_resp_le. }
  assert (Hlt : Qfloor x = n ->
                ((x - inject_Z (Qfloor x)) ?= 1 # 2)%Q = Lt).
  { intros E. rewrite E. apply Qlt_alt.
    apply Qle_lt_trans with (y := (inject_Z n - inject_Z n)%Q).
    - apply Qplus_le_l. exact Hn.
    - assert (Hz : (inject_Z n - inject_Z n == 0)%Q) by ring.
      rewrite Hz. reflexivity. }
  destruct (Z.eq_dec (Qfloor x) n) as [E | E].
  - rewrite (Hlt E). lia.
  - destruct (Qcompare _ _); [destruct (Z.even _) | |]; lia.
Qed.

Lemma round2_unit_interval (x : Q) :
  (0 <= x)%Q -> (x <= 1)%Q -> (0 <= round2 x)%Q /\ (round2 x <= 1)%Q.
Proof.
  intros H0 H1.
  assert (Hb : 0 <= round_half_even (x * 100) <= 100).
  { apply round_half_even_bounds.
    - apply Qmult_le_0_compat; [exact H0 | discriminate].
    - change (inject_Z 100) with (1 * 100)%Q.
      apply Qmult_le_compat_r; [exact H1 | discriminate]. }
  unfold round2, Qle; simpl. lia.
Qed.

(** ** Helper facts on strings and lists *)

Lemma noise_keywords_lowercase :
  List.Forall (fun kw => lower kw = kw) NOISE_KEYWORDS.
Proof. repeat constructor. Qed.

Lemma find_first_match {A} (f : A -> bool) (pre post : list A) (x : A) :
  (forall y, In y pre -> f y = false) -> f x = true ->
  List.find f (pre ++ x :: post)%list = Some x.
Proof.
  intros Hpre Hx. induction pre as [| y pre IH]; simpl.
  - now rewrite Hx.
  - rewrite (Hpre y) by now left. apply IH. intros z Hz. apply Hpre. now right.
Qed.

Lemma topic_keywords_lowercase :
  List.Forall (fun t => List.Forall (fun kw => lower kw = kw) (keywords t)) AI_TOPICS.
Proof. repeat constructor. Qed.

(** ** Classifier *)

(** C1. When a configured noise phrase occurs in the lowercased title and
    body, [classify_item] answers with the first such phrase in configured
    order: the record is noise, its reason names that phrase, its relevance
    is 0 and it has no primary topic, whatever topic keywords the text also
    holds. *)
Theorem noise_keyword_takes_precedence (item : Item) (pre post : list string) (kw : string) :
  NOISE_KEYWORDS = (pre ++ kw :: post)%list ->
  (forall k, In k pre -> contains k (item_text item) = false) ->
  contains kw (item_text item) = true ->
  is_noise (classify_item item) = true
  /\ filter_reason (classify_item item) = Some ("noise_keyword: " ++ kw)
  /\ relevance_score (classify_item item) = 0%Q
  /\ primary_topic (classify_item item) = None
  /\ is_ai_relevant (classify_item item) = false.
Proof.
  intros Hcfg Hpre Hkw.
  assert (Hlow : forall k, In k NOISE_KEYWORDS -> lower k = k).
  { apply List.Forall_forall. exact noise_keywords_lowercase. }
  assert (Hfind : List.find (fun noise_kw => contains (lower noise_kw) (item_text item))
                    NOISE_KEYWORDS = Some kw).
  { rewrite Hcfg in *. apply find_first_match.
    - intros y Hy. rewrite Hlow by (apply in_or_app; now left). now apply Hpre.
    - rewrite Hlow by (apply in_or_app; right; now left). exact Hkw. }
  unfold classify_item. rewrite Hfind. simpl. repeat split.
Qed.

Lemma noise_keyword_takes_precedence_witness :
  contains "grammar" (item_text grammar_item) = true
  /\ is_noise (classify_item grammar_item) = true
  /\ filter_reason (classify_item grammar_item) = Some "noise_keyword: grammar"
  /\ relevance_score (classify_item grammar_item) = 0%Q
  /\ primary_topic (classify_item grammar_item) = None
  /\ is_ai_relevant (classify_item grammar_item) = false.
Proof.
  split; [reflexivity |].
  apply (noise_keyword_takes_precedence grammar_item
           ["sleep in lax"; "where to sleep"; "music club"; "diy music";
            "linguistics"; "passive voice"]
           ["heating homes"; "weather satellite"; "cancer treatment"; "drug trial";
            "wifi only works"; "curved things"; "board games"]
           "grammar").
  - reflexivity.
  - intros k Hk. simpl in Hk.
    repeat (destruct Hk as [<- | Hk]; [reflexivity |]). contradiction.
  - reflexivity.
Defined.

Lemma score_keywords_spec (kws : list string) (title_l text : string) :
  List.Forall (fun kw => lower kw = kw) kws ->
  fst (score_keywords kws title_l text)
  = fold_right Z.add 0 (map (spec_keyword_points title_l text) kws).
Proof.
  induction 1 as [| kw kws Hkw _ IH]; simpl; [reflexivity |].
  destruct (score_keywords kws title_l text) as [score matched]. simpl in IH.
  unfold spec_keyword_points at 1. rewrite Hkw, <- IH.
  destruct (contains kw text); [destruct (contains kw title_l) |]; reflexivity.
Qed.

Lemma spec_raw_score_nonneg (item : Item) (t : Topic) : 0 <= spec_raw_score item t.
Proof.
  unfold spec_raw_score. induction (keywords t) as [| kw kws IH]; simpl; [lia |].
  unfold spec_keyword_points at 1.
  destruct (contains kw _); [destruct (contains kw _) |]; lia.
Qed.

Lemma py_sum_Qsum (xs : list Q) : (py_sum xs == Qsum xs)%Q.
Proof.
  unfold py_sum, Qsum.
  assert (H : forall acc, (fold_left Qplus xs acc == acc + fold_right Qplus 0 xs)%Q).
  { induction xs as [| x xs IH]; intros acc; simpl; [ring |].
    rewrite IH. ring. }
  rewrite H. ring.
Qed.

Lemma score_topics_sum (item : Item) (topics : list Topic) :
  List.Forall (fun t => List.Forall (fun kw => lower kw = kw) (keywords t)) topics ->
  (Qsum (map (fun x => weighted_score (snd x))
           (score_topics topics (lowered (title item)) (item_text item)))
   == Qsum (map (spec_weighted_score item) topics))%Q.
Proof.
  induction 1 as [| t topics Ht _ IH]; simpl; [reflexivity |].
  pose proof (score_keywords_spec _ (lowered (title item)) (item_text item) Ht) as Hs.
  destruct (score_keywords (keywords t) _ _) as [score matched]. simpl in Hs.
  fold (spec_raw_score item t) in Hs.
  unfold spec_weighted_score at 1. rewrite <- Hs.
  destruct (0 <? score) eqn:E; simpl.
  - now rewrite IH.
  - assert (score = 0).
    { pose proof (spec_raw_score_nonneg item t). apply Z.ltb_ge in E. lia. }
    rewrite IH, H. change (inject_Z 0) with 0%Q. ring.
Qed.

Lemma topic_weights_nonneg :
  List.Forall (fun t => (0 <= weight t)%Q) AI_TOPICS.
Proof. repeat constructor; discriminate. Qed.

Lemma spec_total_nonneg (item : Item) (topics : list Topic) :
  List.Forall (fun t => (0 <= weight t)%Q) topics ->
  (0 <= Qsum (map (spec_weighted_score item) topics))%Q.
Proof.
  induction 1 as [| t topics Ht _ IH]; simpl; [discriminate |].
  change 0%Q with (0 + 0)%Q. apply Qplus_le_compat; [| exact IH].
  apply Qmult_le_0_compat; [| exact Ht].
  change 0%Q with (inject_Z 0). rewrite <- Zle_Qle. apply spec_raw_score_nonneg.
Qed.

Lemma py_min_unit (x : Q) : (0 <= x)%Q -> (0 <= py_min x 1)%Q /\ (py_min x 1 <= 1)%Q.
Proof.
  intros H. unfold py_min. destruct (Qltb 1 x) eqn:E.
  - split; [discriminate | apply Qle_refl].
  - apply Qltb_ge in E. now split.
Qed.

Lemma classify_item_relevant (item : Item) :
  is_noise (classify_item item) = false ->
  relevance_score (classify_item item)
  = round2 (py_min (py_sum (map (fun x => weighted_score (snd x))
                              (score_topics AI_TOPICS (lowered (title item)) (item_text item)))
                    / 10) 1).
Proof.
  unfold classify_item.
  destruct (List.find _ NOISE_KEYWORDS); [discriminate |].
  destruct (score_topics AI_TOPICS _ _); [discriminate | reflexivity].
Qed.

Lemma classify_item_noise (item : Item) :
  is_noise (classify_item item) = true ->
  relevance_score (classify_item item) = 0%Q
  /\ primary_topic (classify_item item) = None
  /\ exists reason, filter_reason (classify_item item) = Some reason.
Proof.
  unfold classify_item.
  destruct (List.find _ NOISE_KEYWORDS); [simpl; eauto |].
  destruct (score_topics AI_TOPICS _ _); [simpl; eauto | discriminate].
Qed.

(** ** Binary64 arithmetic of the relevance score *)













(** The two readings of the arithmetic keep the same topics, with the same
    raw scores, keywords and labels, and so give the same verdict. *)
Lemma score_topics_f64_matches (topics : list Topic) (title_l text : string) :
  map (fun x => (fst x, raw_score (snd x), matched_keywords (snd x), ts_label (snd x)))
    (score_topics_f64 topics title_l text)
  = map (fun x => (fst x, raw_score (snd x), matched_keywords (snd x), ts_label (snd x)))
      (score_topics topics title_l text).
Proof.
  induction topics as [| t topics IH]; simpl; [reflexivity |].
  destruct (score_keywords (keywords t) title_l text) as [score matched].
  destruct (0 <? score); simpl; now rewrite IH.
Qed.

Lemma classify_item_f64_verdict (item : Item) :
  is_noise (classify_item_f64 item) = is_noise (classify_item item)
  /\ is_ai_relevant (classify_item_f64 item) = is_ai_relevant (classify_item item)
  /\ filter_reason (classify_item_f64 item) = filter_reason (classify_item item)
  /\ all_topics (classify_item_f64 item) = all_topics (classify_item item).
Proof.
  unfold classify_item_f64, classify_item.
  destruct (List.find _ NOISE_KEYWORDS); [repeat split |].
  pose proof (score_topics_f64_matches AI_TOPICS (lowered (title item)) (item_text item)) as H.
  assert (Hfst : map fst (score_topics_f64 AI_TOPICS (lowered (title item)) (item_text item))
                 = map fst (score_topics AI_TOPICS (lowered (title item)) (item_text item))).
  { apply (f_equal (map (fun y : string * Z * list string * string =>
                           fst (fst (fst y))))) in H.
    rewrite !map_map in H. exact H. }
  destruct (score_topics_f64 AI_TOPICS _ _) as [| a l];
    destruct (score_topics AI_TOPICS _ _) as [| b l']; try discriminate.
  - repeat split.
  - cbn [is_noise is_ai_relevant filter_reason all_topics]. repeat split. exact Hfst.
Qed.






(** At a decimal tie the program follows the double: 1.75 / 10 is the
    double just below 0.175 and rounds to 0.17; 0.85 + 1.6 + 0.6 added from
    the left is 3.0500000000000003, a tenth of which is above 0.305 and
    rounds to 0.31.  The exact reading rounds both ties to the even digit. *)
Example relevance_at_decimal_ties :
  relevance_score (classify_item_f64 tie_item) = binary64 (17 # 100)
  /\ relevance_score (classify_item tie_item) = (18 # 100)%Q
  /\ relevance_score (classify_item_f64 alignment_item) = binary64 (31 # 100)
  /\ relevance_score (classify_item alignment_item) = (30 # 100)%Q
  /\ relevance_score (classify_item_f64 benchmark_item) = binary64 (58 # 100)
  /\ relevance_score (classify_item benchmark_item) = (58 # 100)%Q.
Proof. repeat split; vm_compute; reflexivity. Qed.

(** ** Engagement analyzer *)

Lemma calculate_quality_tier_table (likes : Z) (ratio : Q) (flamewar : bool) (vel : Q) :
  _calculate_quality_tier likes ratio flamewar vel
  = spec_quality_tier likes ratio flamewar vel.
Proof.
  unfold _calculate_quality_tier, spec_quality_tier, first_match, tier_rules.
  destruct flamewar; simpl; [reflexivity |].
  destruct (Qltb 20 vel && (100 <? likes)); simpl; [reflexivity |].
  destruct ((300 <? likes) && Qltb ratio (6 # 10)); simpl; [reflexivity |].
  destruct (100 <? likes); simpl; [reflexivity |].
  destruct (30 <? likes); reflexivity.
Qed.

Lemma calculate_engagement_quality_ok (now : Z) (item : Item) :
  metadata item <> Null ->
  exists e, calculate_engagement_quality now item = Ok e.
Proof.
  intros Hm. unfold calculate_engagement_quality, kids_of.
  destruct (metadata item); [| contradiction |]; simpl;
    destruct (age_of now _ _); eauto.
Qed.

(** C2. The tier stored by [calculate_engagement_quality] is the decision
    table read top to bottom on likes, the flamewar flag and the ratio and
    velocity before rounding. *)
Theorem quality_tier_decision_table (now : Z) (item : Item) (e : Engagement) :
  calculate_engagement_quality now item = Ok e ->
  quality_tier e
  = spec_quality_tier (count_or_0 (impressions_likes item)) (spec_engagement_ratio item)
      (is_flamewar e) (spec_velocity now item).
Proof.
  unfold calculate_engagement_quality, spec_engagement_ratio, spec_velocity, age_of.
  destruct (kids_of item) as [kids | ex]; simpl; [| discriminate].
  destruct (published_at item) as [p |]; intros [= <-]; simpl;
    apply calculate_quality_tier_table.
Qed.

Lemma quality_tier_decision_table_witness :
  exists e, calculate_engagement_quality 0 near_threshold_item = Ok e
            /\ quality_tier e = high_quality
            /\ engagement_ratio e = (60 # 100)%Q
            /\ quality_tier e
               = spec_quality_tier 1000 (spec_engagement_ratio near_threshold_item)
                   (is_flamewar e) (spec_velocity 0 near_threshold_item)
            /\ spec_quality_tier 1000 (engagement_ratio e) (is_flamewar e) (velocity e) = good.
Proof.
  eexists. split; [reflexivity |]. split; [reflexivity |]. split; [reflexivity |].
  split; [| reflexivity].
  apply (quality_tier_decision_table 0 near_threshold_item). reflexivity.
Defined.

(** ** Stable sorting *)

Section StableSortFacts.
Context {A : Type} (ltb : A -> A -> bool).
Hypothesis ltb_asym : forall x y, ltb x y = true -> ltb y x = false.
Hypothesis ltb_negtrans :
  forall x y z, ltb y x = false -> ltb z y = false -> ltb z x = false.

Lemma insert_stable_perm (x : A) (l : list A) :
  Permutation (x :: l) (insert_stable ltb x l).
Proof.
  induction l as [| y l IH]; simpl; [reflexivity |].
  destruct (ltb y x); [| reflexivity].
  rewrite perm_swap. now apply perm_skip.
Qed.

Lemma sort_stable_perm (l : list A) : Permutation l (sort_stable ltb l).
Proof.
  induction l as [| x l IH]; simpl; [reflexivity |].
  rewrite <- insert_stable_perm. now apply perm_skip.
Qed.

Lemma insert_stable_sorted (x : A) (l : list A) :
  StronglySorted (not_after ltb) l -> StronglySorted (not_after ltb) (insert_stable ltb x l).
Proof.
  induction 1 as [| y l Hs IH Hy]; simpl.
  - constructor; constructor.
  - destruct (ltb y x) eqn:E.
    + constructor; [exact IH |].
      apply (Permutation_Forall (insert_stable_perm x l)).
      constructor; [| exact Hy]. apply ltb_asym. exact E.
    + constructor; [now constructor |].
      constructor; [exact E |].
      revert Hy. apply List.Forall_impl. intros z Hz.
      apply (ltb_negtrans x y z); assumption.
Qed.

Lemma sort_stable_sorted (l : list A) : StronglySorted (not_after ltb) (sort_stable ltb l).
Proof.
  induction l as [| x l IH]; simpl; [constructor |].
  now apply insert_stable_sorted.
Qed.

(** Elements that are pairwise not smaller than each other keep their
    order. *)
Lemma insert_stable_filter (P : A -> bool) (x : A) (l : list A) :
  (forall a b, P a = true -> P b = true -> ltb a b = false) ->
  List.filter P (insert_stable ltb x l) = List.filter P (x :: l).
Proof.
  intros HP. induction l as [| y l IH]; simpl; [reflexivity |].
  destruct (ltb y x) eqn:E; [| reflexivity].
  simpl. rewrite IH. simpl.
  destruct (P x) eqn:Px, (P y) eqn:Py; try reflexivity.
  rewrite (HP y x Py Px) in E. discriminate.
Qed.

Lemma sort_stable_filter (P : A -> bool) (l : list A) :
  (forall a b, P a = true -> P b = true -> ltb a b = false) ->
  List.filter P (sort_stable ltb l) = List.filter P l.
Proof.
  intros HP. induction l as [| x l IH]; simpl; [reflexivity |].
  rewrite insert_stable_filter by exact HP. simpl. now rewrite IH.
Qed.
End StableSortFacts.







Lemma slice_to_prefix {A} (n : Z) (xs : list A) :
  exists rest, xs = (slice_to n xs ++ rest)%list.
Proof.
  unfold slice_to. destruct (0 <=? n); eexists; symmetry; apply firstn_skipn.
Qed.

Lemma StronglySorted_weaken {A} (R R' : A -> A -> Prop) (l : list A) :
  (forall a b, R a b -> R' a b) -> StronglySorted R l -> StronglySorted R' l.
Proof.
  intros HR. induction 1 as [| x l _ IH Hx]; constructor; [exact IH |].
  revert Hx. apply List.Forall_impl. intros y. apply HR.
Qed.




(** ** Publish selection *)

Lemma keeps_low_iff (st : ScanState) (item : CuratedItem) :
  keeps_low st item = true <->
  (hours_old (engagement_quality item) < 4)%Q
  \/ count_of (theme_counts st) (primary_topic (classification item)) = 0%nat.
Proof.
  unfold keeps_low. now rewrite orb_true_iff, Qltb_lt, Nat.eqb_eq.
Qed.

Lemma count_of_admit_same (st : ScanState) (item : CuratedItem) :
  count_of (theme_counts (admit_item st item)) (primary_topic (classification item))
  = S (count_of (theme_counts st) (primary_topic (classification item))).
Proof.
  unfold admit_item, count_of; simpl. now rewrite lookup_insert_eq.
Qed.

Lemma count_of_admit_other (st : ScanState) (item : CuratedItem) (t : option string) :
  t <> primary_topic (classification item) ->
  count_of (theme_counts (admit_item st item)) t = count_of (theme_counts st) t.
Proof.
  intros Ht. unfold admit_item, count_of; simpl.
  now rewrite lookup_insert_ne by congruence.
Qed.

(** The scan only ever appends to [published] and to the hidden bucket. *)
Lemma publish_scan_extends (publish_count : Z) (pool : list CuratedItem) (st : ScanState) :
  exists more_published more_hidden,
    published (publish_scan publish_count pool st) = (published st ++ more_published)%list
    /\ hidden (publish_scan publish_count pool st) = (hidden st ++ more_hidden)%list.
Proof.
  revert st. induction pool as [| item pool IH]; intros st; simpl.
  - exists [], []. now rewrite !app_nil_r.
  - destruct (tier_eqb _ low && negb (keeps_low st item)).
    + destruct (IH (hide st item)) as (p & h & Hp & Hh).
      rewrite Hp, Hh. simpl. rewrite <- app_assoc. eauto.
    + destruct (publish_count <=? _).
      * simpl. exists [item], []. now rewrite app_nil_r.
      * destruct (IH (admit_item st item)) as (p & h & Hp & Hh).
        rewrite Hp, Hh. simpl. rewrite <- app_assoc. eauto.
Qed.

Lemma publish_scan_low_step (publish_count : Z) (item : CuratedItem)
    (rest : list CuratedItem) (st : ScanState) :
  quality_tier (engagement_quality item) = low ->
  publish_scan publish_count (item :: rest) st
  = if keeps_low st item
    then (if publish_count <=? Z.of_nat (length (published (admit_item st item)))
          then admit_item st item
          else publish_scan publish_count rest (admit_item st item))
    else publish_scan publish_count rest (hide st item).
Proof.
  intros Hlow. simpl. unfold tier_eqb at 1. rewrite Hlow. simpl.
  destruct (keeps_low st item); reflexivity.
Qed.

(** C4. A low-tier candidate is admitted exactly when it is younger than 4
    hours or its topic has no published item yet; admitted, it is appended
    to [published] and its topic count goes up by one; otherwise it is
    appended to the hidden bucket with its diagnostic reason and neither
    [published] nor any topic count changes.  Of two such stale items of one
    unseen topic scanned in a row, the first is published and the second is
    hidden. *)
Theorem low_tier_publish_gate (publish_count : Z) (item : CuratedItem)
    (rest : list CuratedItem) (st : ScanState) :
  quality_tier (engagement_quality item) = low ->
  let topic := primary_topic (classification item) in
  let hours := hours_old (engagement_quality item) in
  let n := count_of (theme_counts st) topic in
  let final := publish_scan publish_count (item :: rest) st in
  ((hours < 4)%Q \/ n = 0%nat ->
   exists st',
     published st' = (published st ++ [item])%list
     /\ hidden st' = hidden st
     /\ count_of (theme_counts st') topic = S n
     /\ (forall t, t <> topic -> count_of (theme_counts st') t = count_of (theme_counts st) t)
     /\ final = (if publish_count <=? Z.of_nat (length (published st')) then st'
                 else publish_scan publish_count rest st')
     /\ exists more, published final = (published st ++ item :: more)%list)
  /\ (~ ((hours < 4)%Q \/ n = 0%nat) ->
      exists st',
        published st' = published st
        /\ theme_counts st' = theme_counts st
        /\ hidden st' = (hidden st ++ [{| entry_title := get (title (raw item));
                                          entry_reason := Val (ReasonLowQuality hours topic n) |}])%list
        /\ final = publish_scan publish_count rest st'
        /\ exists more, hidden final
                        = (hidden st ++ {| entry_title := get (title (raw item));
                                           entry_reason := Val (ReasonLowQuality hours topic n) |}
                                        :: more)%list)
  /\ (forall other,
        quality_tier (engagement_quality other) = low ->
        primary_topic (classification other) = topic ->
        ~ (hours < 4)%Q -> ~ (hours_old (engagement_quality other) < 4)%Q ->
        2 <= publish_count ->
        published (publish_scan publish_count [item; other] empty_scan) = [item]
        /\ hidden (publish_scan publish_count [item; other] empty_scan)
           = [{| entry_title := get (title (raw other));
                 entry_reason := Val (ReasonLowQuality (hours_old (engagement_quality other))
                                        topic 1) |}]).
Proof.
  intros Hlow topic hours n final.
  assert (Hstep := publish_scan_low_step publish_count item rest st Hlow).
  fold final in Hstep.
  split; [| split].
  - intros Hadm. apply keeps_low_iff in Hadm. rewrite Hadm in Hstep.
    exists (admit_item st item).
    split; [reflexivity |]. split; [reflexivity |].
    split; [apply count_of_admit_same |].
    split; [intros t Ht; now apply count_of_admit_other |].
    split; [exact Hstep |].
    rewrite Hstep. destruct (publish_count <=? _).
    + exists []. reflexivity.
    + destruct (publish_scan_extends publish_count rest (admit_item st item))
        as (p & h & Hp & _).
      exists p. rewrite Hp. simpl. now rewrite <- app_assoc.
  - intros Hrej.
    assert (Hk : keeps_low st item = false).
    { apply not_true_is_false. intros K. apply Hrej. now apply keeps_low_iff. }
    rewrite Hk in Hstep.
    exists (hide st item).
    split; [reflexivity |]. split; [reflexivity |]. split; [reflexivity |].
    split; [exact Hstep |].
    destruct (publish_scan_extends publish_count rest (hide st item))
      as (p & h & _ & Hh).
    exists h. rewrite Hstep, Hh. simpl. now rewrite <- app_assoc.
  - intros other Hlow' Htopic Hstale Hstale' Hpc.
    assert (Hfirst : keeps_low empty_scan item = true).
    { apply keeps_low_iff. right. reflexivity. }
    assert (Hsecond : keeps_low (admit_item empty_scan item) other = false).
    { apply not_true_is_false. rewrite keeps_low_iff, Htopic.
      unfold topic. rewrite count_of_admit_same. intros [K | K]; [tauto | discriminate]. }
    rewrite (publish_scan_low_step _ item [other] empty_scan Hlow), Hfirst.
    change (Z.of_nat (length (published (admit_item empty_scan item)))) with 1.
    destruct (publish_count <=? 1) eqn:E; [apply Z.leb_le in E; lia |].
    rewrite (publish_scan_low_step _ other [] _ Hlow'), Hsecond.
    cbn [publish_scan]. unfold hide. cbn [published hidden].
    rewrite Htopic. unfold topic. rewrite count_of_admit_same.
    split; reflexivity.
Qed.

Example low_llm_item_is_a_survivor :
  funnel default_config (fun _ => 0) 0 [sample "GPT notes" 5 0 None; sample "Claude notes" 5 0 None]
    empty_funnel
  = Ok {| curated := [low_llm_item "GPT notes"; low_llm_item "Claude notes"];
          filtered_out := filtered_out empty_funnel |}.
Proof. reflexivity. Qed.

Lemma low_tier_publish_gate_witness :
  quality_tier (engagement_quality (low_llm_item "GPT notes")) = low
  /\ published (publish_scan 8 [low_llm_item "GPT notes"; low_llm_item "Claude notes"]
                  empty_scan)
     = [low_llm_item "GPT notes"]
  /\ hidden (publish_scan 8 [low_llm_item "GPT notes"; low_llm_item "Claude notes"]
               empty_scan)
     = [{| entry_title := Some "Claude notes";
           entry_reason := Val (ReasonLowQuality (240 # 10) (Some "llm") 1) |}].
Proof.
  split; [reflexivity |].
  destruct (low_tier_publish_gate 8 (low_llm_item "GPT notes") [] empty_scan eq_refl)
    as (_ & _ & H).
  apply (H (low_llm_item "Claude notes")).
  - reflexivity.
  - reflexivity.
  - intros K. discriminate K.
  - intros K. discriminate K.
  - lia.
Defined.

(** ** The pipeline as a whole *)

Lemma curate_Ok (cfg : Config) (clock : nat -> Z) (raw_items : list Item) (out : Output) :
  curate cfg clock raw_items = Ok out ->
  exists st,
    funnel cfg clock 0 raw_items empty_funnel = Ok st
    /\ pool_items out = slice_to (pool_size cfg) (sort_curated (curated st))
    /\ published_items out
       = published (publish_scan (publish_count cfg) (pool_items out) empty_scan)
    /\ themes out = group_by_theme (published_items out)
    /\ noise (out_filtered out) = noise (filtered_out st)
    /\ low_relevance (out_filtered out) = low_relevance (filtered_out st)
    /\ flamewar (out_filtered out) = flamewar (filtered_out st)
    /\ low_quality_hidden (out_filtered out)
       = hidden (publish_scan (publish_count cfg) (pool_items out) empty_scan).
Proof.
  unfold curate. destruct (funnel cfg clock 0 raw_items empty_funnel) as [st | e]; simpl.
  - intros [= <-]. exists st. simpl. repeat split.
  - discriminate.
Qed.

Lemma slice_to_length {A} (n : Z) (xs : list A) :
  0 <= n -> Z.of_nat (length (slice_to n xs)) <= n.
Proof.
  intros Hn. unfold slice_to. destruct (Z.leb_spec 0 n); [| lia].
  pose proof (firstn_le_length (Z.to_nat n) xs). lia.
Qed.

Lemma publish_scan_length (publish_count : Z) (pool : list CuratedItem) (st : ScanState) :
  Z.of_nat (length (published st)) < publish_count ->
  Z.of_nat (length (published (publish_scan publish_count pool st))) <= publish_count.
Proof.
  revert st. induction pool as [| item pool IH]; intros st Hlt; cbn [publish_scan]; [lia |].
  assert (Hlen : length (published (admit_item st item)) = S (length (published st))).
  { unfold admit_item. simpl. rewrite length_app. simpl. lia. }
  destruct (tier_eqb _ low && negb (keeps_low st item)).
  - apply IH. exact Hlt.
  - destruct (Z.leb_spec publish_count
                (Z.of_nat (length (published (admit_item st item))))) as [Hle | Hgt].
    + rewrite Hlen in *. lia.
    + apply IH. exact Hgt.
Qed.

(** With at least one item to publish the bounds hold. *)
Lemma curate_bounds (cfg : Config) (clock : nat -> Z) (raw_items : list Item) (out : Output) :
  0 <= pool_size cfg -> 1 <= publish_count cfg ->
  curate cfg clock raw_items = Ok out ->
  Z.of_nat (length (published_items out)) <= publish_count cfg
  /\ Z.of_nat (length (pool_items out)) <= pool_size cfg.
Proof.
  intros Hpool Hpub Hout.
  destruct (curate_Ok _ _ _ _ Hout) as (st & _ & Hp & Hpubl & _).
  split.
  - rewrite Hpubl. apply publish_scan_length. simpl. lia.
  - rewrite Hp. now apply slice_to_length.
Qed.

(** C5. With [publish_count] 0 and one publishable record, [curate]
    publishes that record: the test against [publish_count] comes after the
    append, so the published list has length 1, above the bound of 0. *)
Theorem publish_count_zero_publishes_one :
  exists out,
    curate publish_nothing_config (fun _ => 0) [benchmark_item] = Ok out
    /\ length (published_items out) = 1%nat
    /\ length (pool_items out) = 1%nat
    /\ ~ Z.of_nat (length (published_items out)) <= publish_count publish_nothing_config.
Proof.
  eexists. split; [vm_compute; reflexivity |].
  cbn [published_items pool_items length publish_count publish_nothing_config].
  repeat split. lia.
Qed.

(** C8. A relevant record whose [impressions_likes] holds [None] makes
    [curate] raise [TypeError] from the editorial layer, whatever records
    follow it in the batch: no output is produced for any of them. *)
Theorem none_likes_aborts_batch (clock : nat -> Z) (rest : list Item) :
  curate default_config clock (null_likes_item :: rest) = Raise TypeError.
Proof.
  unfold curate. cbn [funnel].
  assert (H : funnel_body default_config (clock 0%nat) null_likes_item empty_funnel
              = Raise TypeError) by (vm_compute; reflexivity).
  rewrite H. reflexivity.
Qed.

(** A [None] title passes the classifier, which falls back to the empty
    string, and fails in [_generate_one_liner]; a [None] metadata fails in
    the engagement analyzer. *)
Example none_title_aborts_batch (clock : nat -> Z) (rest : list Item) :
  curate default_config clock (null_title_item :: rest) = Raise AttributeError.
Proof.
  unfold curate. cbn [funnel].
  assert (H : funnel_body default_config (clock 0%nat) null_title_item empty_funnel
              = Raise AttributeError) by (vm_compute; reflexivity).
  rewrite H. reflexivity.
Qed.

Example none_metadata_aborts_batch (clock : nat -> Z) (rest : list Item) :
  curate default_config clock (null_metadata_item :: rest) = Raise AttributeError.
Proof.
  unfold curate. cbn [funnel].
  assert (H : funnel_body default_config (clock 0%nat) null_metadata_item empty_funnel
              = Raise AttributeError) by (vm_compute; reflexivity).
  rewrite H. reflexivity.
Qed.

(** The engagement analyzer handles the record with the [None] likes: it
    reads the key with a fallback to 0. *)
Example none_likes_engagement_ok (now : Z) :
  exists e, calculate_engagement_quality now null_likes_item = Ok e
            /\ quality_tier e = low.
Proof. eexists. split; reflexivity. Qed.

(** ** Filtered buckets *)

(** What one pass of the first loop does to the state. *)
Lemma funnel_body_cases (cfg : Config) (now : Z) (item : Item) (st st' : FunnelState) :
  funnel_body cfg now item st = Ok st' ->
  (exists reason,
      st' = add_noise {| entry_title := get (title item);
                         entry_reason := Val (ReasonText reason) |} st)
  \/ st' = add_flamewar {| entry_title := get (title item); entry_reason := Absent |} st
  \/ st' = add_low_relevance {| entry_title := get (title item); entry_reason := Absent |} st
  \/ (exists c, raw c = item /\ st' = add_curated c st).
Proof.
  unfold funnel_body.
  destruct (is_noise (classify_item item)) eqn:Hn.
  - destruct (classify_item_noise item Hn) as (_ & _ & reason & ->).
    intros [= <-]. left. now exists reason.
  - destruct (calculate_engagement_quality now item) as [e | ex]; simpl; [| discriminate].
    destruct (tier_eqb (quality_tier e) skip_flamewar).
    + intros [= <-]. right. now left.
    + destruct (Qltb _ _).
      * intros [= <-]. right. right. now left.
      * destruct (generate_editorial item _ e) as [ed | ex]; simpl; [| discriminate].
        intros [= <-]. right. right. right. eexists. split; [| reflexivity]. reflexivity.
Qed.

Lemma funnel_body_buckets (cfg : Config) (now : Z) (item : Item) (st st' : FunnelState) :
  funnel_body cfg now item st = Ok st' -> funnel_buckets_ok st -> funnel_buckets_ok st'.
Proof.
  intros H (Hn & Hf & Hl).
  destruct (funnel_body_cases _ _ _ _ _ H) as [[r ->] | [-> | [-> | [c [_ ->]]]]];
    unfold funnel_buckets_ok; simpl; repeat split; try assumption;
    apply List.Forall_app; (split; [assumption |]); repeat constructor.
  now exists (ReasonText r).
Qed.

Lemma funnel_buckets (cfg : Config) (clock : nat -> Z) (items : list Item) :
  forall i st st',
    funnel cfg clock i items st = Ok st' -> funnel_buckets_ok st -> funnel_buckets_ok st'.
Proof.
  induction items as [| item items IH]; intros i st st'; simpl.
  - now intros [= <-].
  - destruct (funnel_body cfg (clock i) item st) as [st1 | ex] eqn:E; simpl; [| discriminate].
    intros H Hok. apply (IH _ _ _ H). exact (funnel_body_buckets _ _ _ _ _ E Hok).
Qed.

Lemma publish_scan_hidden_reason (publish_count : Z) (pool : list CuratedItem) (st : ScanState) :
  List.Forall has_reason (hidden st) ->
  List.Forall has_reason (hidden (publish_scan publish_count pool st)).
Proof.
  revert st. induction pool as [| item pool IH]; intros st Hst; cbn [publish_scan]; [exact Hst |].
  destruct (tier_eqb _ low && negb (keeps_low st item)).
  - apply IH. unfold hide; simpl. apply List.Forall_app. split; [exact Hst |].
    repeat constructor. eexists. reflexivity.
  - destruct (publish_count <=? _); [exact Hst | apply IH; exact Hst].
Qed.

(** C9, as the code has it.  In every output the entries of the noise and
    low_quality_hidden buckets hold a title and a reason, and the entries of
    the flamewar and low_relevance buckets hold a title only. *)
Theorem bucket_entries_reason (cfg : Config) (clock : nat -> Z) (raw_items : list Item)
    (out : Output) :
  curate cfg clock raw_items = Ok out ->
  List.Forall has_reason (noise (out_filtered out))
  /\ List.Forall has_reason (low_quality_hidden (out_filtered out))
  /\ List.Forall title_only (flamewar (out_filtered out))
  /\ List.Forall title_only (low_relevance (out_filtered out)).
Proof.
  intros Hout.
  destruct (curate_Ok _ _ _ _ Hout) as (st & Hf & _ & _ & _ & -> & -> & -> & ->).
  assert (Hok : funnel_buckets_ok st).
  { apply (funnel_buckets _ _ _ _ _ _ Hf). repeat split; constructor. }
  destruct Hok as (Hn & Hfl & Hl).
  repeat split; try assumption.
  apply publish_scan_hidden_reason. constructor.
Qed.

Lemma bucket_entries_reason_witness :
  exists out,
    curate default_config (fun _ => 0) [grammar_item; flamewar_item; faint_item] = Ok out
    /\ List.Forall has_reason (noise (out_filtered out))
    /\ List.Forall has_reason (low_quality_hidden (out_filtered out))
    /\ List.Forall title_only (flamewar (out_filtered out))
    /\ List.Forall title_only (low_relevance (out_filtered out)).
Proof.
  eexists. split; [vm_compute; reflexivity |].
  apply (bucket_entries_reason default_config (fun _ => 0)
           [grammar_item; flamewar_item; faint_item]).
  vm_compute. reflexivity.
Defined.

(** C9, as stated, fails: a flamewar record and a low-relevance record are
    each stored with their title alone. *)
Lemma flamewar_entry_lacks_reason :
  exists out,
    curate default_config (fun _ => 0) [flamewar_item; faint_item] = Ok out
    /\ flamewar (out_filtered out)
       = [{| entry_title := Some "GPT flamewar thread"; entry_reason := Absent |}]
    /\ low_relevance (out_filtered out)
       = [{| entry_title := Some "Weekend notes"; entry_reason := Absent |}]
    /\ ~ every_entry_has_reason (out_filtered out).
Proof.
  eexists. split; [vm_compute; reflexivity |].
  cbn [out_filtered flamewar low_relevance].
  split; [reflexivity |]. split; [reflexivity |].
  intros (_ & _ & H & _). cbn [out_filtered flamewar] in H.
  inversion H as [| e l [r Hr] _]; subst. discriminate Hr.
Qed.

(** ** Repeated runs *)

Lemma calculate_engagement_quality_untimed (now now' : Z) (item : Item) :
  published_at item = None ->
  calculate_engagement_quality now item = calculate_engagement_quality now' item.
Proof.
  intros H. unfold calculate_engagement_quality, age_of. now rewrite H.
Qed.

Lemma funnel_body_clock (cfg : Config) (now now' : Z) (item : Item) (st : FunnelState) :
  (published_at item <> None -> now = now') ->
  funnel_body cfg now item st = funnel_body cfg now' item st.
Proof.
  intros H. unfold funnel_body.
  destruct (published_at item) as [p |] eqn:E.
  - rewrite H by discriminate. reflexivity.
  - now rewrite (calculate_engagement_quality_untimed now now' item E).
Qed.

Lemma funnel_clock (cfg : Config) (clock1 clock2 : nat -> Z) (items : list Item) :
  forall i st,
    (forall j item, nth_error items j = Some item -> published_at item <> None ->
                    clock1 (i + j)%nat = clock2 (i + j)%nat) ->
    funnel cfg clock1 i items st = funnel cfg clock2 i items st.
Proof.
  induction items as [| item items IH]; intros i st H; simpl; [reflexivity |].
  rewrite (funnel_body_clock cfg (clock1 i) (clock2 i) item st).
  - destruct (funnel_body cfg (clock2 i) item st) as [st1 | ex]; simpl; [| reflexivity].
    apply IH. intros j it Hj Hp.
    replace (S i + j)%nat with (i + S j)%nat by lia.
    apply (H (S j) it); assumption.
  - intros Hp. replace i with (i + 0)%nat by lia.
    apply (H 0%nat item); [reflexivity | exact Hp].
Qed.

(** C7, as the code has it.  Two runs on the same records and
    configuration end the same way, with outputs equal except for
    [curated_at], when the clock readings taken for the records that carry
    a usable timestamp are the same in both runs. *)
Theorem curate_repeatable_on_equal_clock (cfg : Config) (clock1 clock2 : nat -> Z)
    (raw_items : list Item) :
  (forall i item, nth_error raw_items i = Some item -> published_at item <> None ->
                  clock1 i = clock2 i) ->
  same_outcome (curate cfg clock1 raw_items) (curate cfg clock2 raw_items).
Proof.
  intros H. unfold curate.
  rewrite (funnel_clock cfg clock1 clock2 raw_items 0 empty_funnel H).
  destruct (funnel cfg clock2 0 raw_items empty_funnel) as [st | ex]; simpl.
  - repeat split.
  - reflexivity.
Qed.

Lemma curate_repeatable_on_equal_clock_witness :
  same_outcome
    (curate default_config (fun i => Z.of_nat i) [benchmark_item; timed_item; faint_item])
    (curate default_config (fun i => if (i =? 1)%nat then 1 else 7 * one_hour)
       [benchmark_item; timed_item; faint_item]).
Proof.
  apply (curate_repeatable_on_equal_clock default_config).
  intros [| [| [| i]]] item Hi Hp; simpl in Hi; try discriminate Hi.
  - injection Hi as <-. now contradiction Hp.
  - reflexivity.
  - injection Hi as <-. now contradiction Hp.
  - destruct i; discriminate Hi.
Defined.

(** C7, as stated, fails: the same record and configuration, run one hour
    and then ten hours after the record was published, give a trending item
    the first time and a good one the second. *)
Lemma curate_depends_on_clock :
  exists out1 out2,
    curate default_config (fun _ => one_hour) [timed_item] = Ok out1
    /\ curate default_config (fun _ => 10 * one_hour) [timed_item] = Ok out2
    /\ map (fun c => quality_tier (engagement_quality c)) (published_items out1)
       = [trending_must_include]
    /\ map (fun c => quality_tier (engagement_quality c)) (published_items out2)
       = [good]
    /\ ~ same_except_curated_at out1 out2.
Proof.
  eexists. eexists.
  split; [vm_compute; reflexivity |]. split; [vm_compute; reflexivity |].
  cbn [published_items].
  split; [reflexivity |]. split; [reflexivity |].
  intros (_ & _ & _ & _ & _ & H & _).
  apply (f_equal (map (fun c => quality_tier (engagement_quality c)))) in H.
  discriminate H.
Qed.

(** ** Survivors beyond the pool *)

Lemma funnel_body_survivor (cfg : Config) (now : Z) (item : Item) (st st' : FunnelState) :
  funnel_body cfg now item st = Ok st' ->
  funnel_total st' = S (funnel_total st)
  /\ (List.Forall (survivor cfg) (curated st) -> List.Forall (survivor cfg) (curated st')).
Proof.
  unfold funnel_body, funnel_total.
  destruct (is_noise (classify_item item)) eqn:Hn.
  - intros [= <-]. simpl. rewrite length_app. simpl. split; [lia | tauto].
  - destruct (calculate_engagement_quality now item) as [e | ex]; simpl; [| discriminate].
    destruct (tier_eqb (quality_tier e) skip_flamewar) eqn:Ht.
    + intros [= <-]. simpl. rewrite length_app. simpl. split; [lia | tauto].
    + destruct (Qltb _ _) eqn:Hr.
      * intros [= <-]. simpl. rewrite length_app. simpl. split; [lia | tauto].
      * destruct (generate_editorial item _ e) as [ed | ex]; simpl; [| discriminate].
        intros [= <-]. simpl. rewrite length_app. simpl. split; [lia |].
        intros Hs. apply List.Forall_app. split; [exact Hs |].
        repeat constructor; simpl.
        -- exact Hn.
        -- unfold tier_eqb in Ht. now apply bool_decide_eq_false in Ht.
        -- rewrite <- Qltb_lt. now rewrite Hr.
Qed.

Lemma funnel_survivors (cfg : Config) (clock : nat -> Z) (items : list Item) :
  forall i st st',
    funnel cfg clock i items st = Ok st' ->
    funnel_total st' = (funnel_total st + length items)%nat
    /\ (List.Forall (survivor cfg) (curated st) -> List.Forall (survivor cfg) (curated st')).
Proof.
  induction items as [| item items IH]; intros i st st'; cbn [funnel length].
  - intros [= <-]. split; [lia | tauto].
  - destruct (funnel_body cfg (clock i) item st) as [st1 | ex] eqn:E; simpl; [| discriminate].
    intros H. destruct (funnel_body_survivor _ _ _ _ _ E) as [Ht Hs].
    destruct (IH _ _ _ H) as [Ht' Hs']. split; [lia | tauto].
Qed.

(** What the scan publishes and what it hides are both drawn, in order,
    from the pool. *)
Lemma publish_scan_from_pool (publish_count : Z) (pool : list CuratedItem) (st : ScanState) :
  exists taken hid,
    sublist taken pool /\ sublist hid pool
    /\ published (publish_scan publish_count pool st) = (published st ++ taken)%list
    /\ map entry_title (hidden (publish_scan publish_count pool st))
       = (map entry_title (hidden st) ++ map (fun c => get (title (raw c))) hid)%list.
Proof.
  revert st. induction pool as [| item pool IH]; intros st; cbn [publish_scan].
  - exists [], []. rewrite !app_nil_r. repeat split; constructor.
  - destruct (tier_eqb _ low && negb (keeps_low st item)).
    + destruct (IH (hide st item)) as (taken & hid & Ht & Hh & Hp & Hhid).
      exists taken, (item :: hid). rewrite Hp, Hhid. unfold hide; simpl.
      rewrite map_app, <- app_assoc. simpl.
      repeat split; [now apply sublist_cons | now apply sublist_skip].
    + destruct (publish_count <=? _).
      * exists [item], []. simpl. rewrite app_nil_r.
        repeat split; [apply sublist_skip, sublist_nil_l | apply sublist_nil_l].
      * destruct (IH (admit_item st item)) as (taken & hid & Ht & Hh & Hp & Hhid).
        exists (item :: taken), hid. rewrite Hp, Hhid. unfold admit_item; simpl.
        rewrite <- app_assoc. simpl.
        repeat split; [now apply sublist_skip | now apply sublist_cons].
Qed.

Lemma theme_append_perm (theme : Theme) (item : CuratedItem)
    (ths : list (Theme * list CuratedItem)) :
  Permutation (concat (map snd (theme_append theme item ths)))
              (item :: concat (map snd ths)).
Proof.
  induction ths as [| [t xs] ths IH]; simpl; [reflexivity |].
  destruct (bool_decide (t = theme)); simpl.
  - rewrite <- app_assoc. simpl.
    rewrite <- Permutation_middle. reflexivity.
  - rewrite IH. rewrite <- Permutation_middle. reflexivity.
Qed.

Lemma group_by_theme_perm (items : list CuratedItem) :
  Permutation (concat (map snd (group_by_theme items))) items.
Proof.
  unfold group_by_theme.
  set (step := fun themes item => theme_append (theme_of item) item themes).
  assert (Hfold : forall acc,
             Permutation (concat (map snd (fold_left step items acc)))
                         (concat (map snd acc) ++ items)%list).
  { induction items as [| x items IH]; intros acc; simpl.
    - now rewrite app_nil_r.
    - rewrite IH. unfold step. rewrite theme_append_perm.
      rewrite <- Permutation_middle. reflexivity. }
  transitivity (concat (map snd (fold_left step items []))); [| exact (Hfold [])].
  generalize (fold_left step items []).
  intros ths. induction ths as [| [t xs] ths IH]; simpl; [reflexivity |].
  apply Permutation_app; [| exact IH]. symmetry. apply sort_stable_perm.
Qed.

(** C10. The sorted survivors split into the pool and the records ranked
    at [pool_size] or beyond.  Every output collection is drawn from the
    pool (published, themes, hidden low-quality entries) or from the records
    that failed a filter (the other three buckets, which with the survivors
    account for every input record); so the records beyond the pool are in
    no collection, and [input_items] exceeds the three filter counts plus
    [pool_items] by their number. *)
Theorem survivors_beyond_pool_vanish (cfg : Config) (clock : nat -> Z)
    (raw_items : list Item) (out : Output) :
  curate cfg clock raw_items = Ok out ->
  exists st dropped,
    funnel cfg clock 0 raw_items empty_funnel = Ok st
    /\ List.Forall (survivor cfg) (curated st)
    /\ sort_curated (curated st) = (pool_items out ++ dropped)%list
    /\ (0 <= pool_size cfg ->
        pool_items out = firstn (Z.to_nat (pool_size cfg)) (sort_curated (curated st))
        /\ dropped = skipn (Z.to_nat (pool_size cfg)) (sort_curated (curated st)))
    /\ sublist (published_items out) (pool_items out)
    /\ Permutation (concat (map snd (themes out))) (published_items out)
    /\ (exists hid,
          sublist hid (pool_items out)
          /\ map entry_title (low_quality_hidden (out_filtered out))
             = map (fun c => get (title (raw c))) hid)
    /\ length raw_items
       = (length (noise (out_filtered out)) + length (low_relevance (out_filtered out))
          + length (flamewar (out_filtered out)) + length (curated st))%nat
    /\ Stats.input_items (stats out)
       = (Stats.filtered_noise (stats out) + Stats.filtered_low_relevance (stats out)
          + Stats.filtered_flamewar (stats out) + Stats.pool_items (stats out)
          + length dropped)%nat.
Proof.
  unfold curate.
  destruct (funnel cfg clock 0 raw_items empty_funnel) as [st | ex] eqn:Hf;
    cbn [mbind result_bind]; [| discriminate].
  intros [= <-]. cbn [pool_items published_items themes out_filtered stats
                      noise low_relevance flamewar low_quality_hidden
                      Stats.input_items Stats.filtered_noise Stats.filtered_low_relevance
                      Stats.filtered_flamewar Stats.pool_items].
  destruct (funnel_survivors _ _ _ _ _ _ Hf) as [Htotal Hsurv].
  unfold funnel_total in Htotal. simpl in Htotal.
  set (sorted := sort_curated (curated st)).
  set (pool := slice_to (pool_size cfg) sorted).
  destruct (slice_to_prefix (pool_size cfg) sorted) as [rest Hrest]. fold pool in Hrest.
  destruct (publish_scan_from_pool (publish_count cfg) pool empty_scan)
    as (taken & hid & Ht & Hh & Hp & Hhid).
  simpl in Hp, Hhid.
  assert (Hlen : length (curated st) = (length pool + length rest)%nat).
  { rewrite <- length_app, <- Hrest. unfold sorted, sort_curated.
    apply Permutation_length, sort_stable_perm. }
  exists st, rest.
  split; [reflexivity |]. split; [apply Hsurv; constructor |].
  split; [exact Hrest |]. split.
  { intros Hn. unfold pool, slice_to in *.
    destruct (Z.leb_spec 0 (pool_size cfg)); [| lia].
    split; [reflexivity |].
    apply (app_inv_head (firstn (Z.to_nat (pool_size cfg)) sorted)).
    rewrite <- Hrest. symmetry. apply firstn_skipn. }
  split; [now rewrite Hp |].
  split; [apply group_by_theme_perm |].
  split; [exists hid; split; [exact Hh | exact Hhid] |].
  split; lia.
Qed.

Lemma survivors_beyond_pool_vanish_witness :
  exists out st dropped,
    curate pool_of_one_config (fun _ => 0)
      [sample "GPT notes" 5 0 None; sample "Claude notes" 5 0 None] = Ok out
    /\ funnel pool_of_one_config (fun _ => 0) 0
         [sample "GPT notes" 5 0 None; sample "Claude notes" 5 0 None] empty_funnel = Ok st
    /\ sort_curated (curated st) = (pool_items out ++ dropped)%list
    /\ dropped = [low_llm_item "Claude notes"]
    /\ pool_items out = [low_llm_item "GPT notes"]
    /\ themes out = [(AI_and_LLMs, [low_llm_item "GPT notes"])]
    /\ out_filtered out
       = {| noise := []; low_relevance := []; flamewar := []; low_quality_hidden := [] |}
    /\ (Stats.input_items (stats out)
        > Stats.filtered_noise (stats out) + Stats.filtered_low_relevance (stats out)
          + Stats.filtered_flamewar (stats out) + Stats.filtered_low_quality (stats out)
          + Stats.pool_items (stats out))%nat.
Proof.
  eexists.
  assert (Hout : curate pool_of_one_config (fun _ => 0)
                   [sample "GPT notes" 5 0 None; sample "Claude notes" 5 0 None] = Ok _)
    by (vm_compute; reflexivity).
  destruct (survivors_beyond_pool_vanish _ _ _ _ Hout)
    as (st & dropped & Hf & _ & Hsplit & Hpool & _).
  exists st, dropped.
  split; [exact Hout |]. split; [exact Hf |]. split; [exact Hsplit |].
  destruct (Hpool ltac:(simpl; lia)) as [_ Hd].
  assert (Hst : Ok st = Ok {| curated := [low_llm_item "GPT notes"; low_llm_item "Claude notes"];
                              filtered_out := filtered_out empty_funnel |}).
  { rewrite <- Hf. vm_compute. reflexivity. }
  injection Hst as ->.
  split; [rewrite Hd; vm_compute; reflexivity |].
  cbn [pool_items themes out_filtered stats Stats.input_items Stats.filtered_noise
       Stats.filtered_low_relevance Stats.filtered_flamewar Stats.filtered_low_quality
       Stats.pool_items].
  split; [vm_compute; reflexivity |]. split; [vm_compute; reflexivity |].
  split; [reflexivity |]. simpl. lia.
Defined.

(** * Further properties of the classifier *)

Lemma sublist_In {A} (l1 l2 : list A) (x : A) : sublist l1 l2 -> In x l1 -> In x l2.
Proof.
  induction 1 as [| y l1 l2 _ IH | y l1 l2 _ IH]; simpl; [tauto | | tauto].
  intros [-> | H]; [now left | right; now apply IH].
Qed.

Lemma score_keywords_matched (kws : list string) (title_l text : string) :
  let '(score, matched) := score_keywords kws title_l text in
  sublist matched kws
  /\ Z.of_nat (length matched) <= score <= 2 * Z.of_nat (length matched)
  /\ List.Forall (fun kw => contains (lower kw) text = true) matched.
Proof.
  induction kws as [| kw kws IH]; simpl.
  - repeat split; try lia; constructor.
  - destruct (score_keywords kws title_l text) as [score matched].
    destruct IH as (Hsub & Hlen & Hall).
    destruct (contains (lower kw) text) eqn:E.
    + split; [now apply sublist_skip |]. split.
      * cbn [length]. destruct (contains (lower kw) title_l); lia.
      * now constructor.
    + split; [now apply sublist_cons |]. now split.
Qed.

Lemma score_topics_entries (topics : list Topic) (title_l text : string) :
  sublist (map fst (score_topics topics title_l text)) (map topic_id topics)
  /\ List.Forall (fun x => exists t, In t topics /\ scored_from text t x)
       (score_topics topics title_l text).
Proof.
  induction topics as [| t topics [IHs IHf]]; simpl.
  - split; constructor.
  - pose proof (score_keywords_matched (keywords t) title_l text) as Hk.
    destruct (score_keywords (keywords t) title_l text) as [score matched].
    destruct Hk as (Hsub & Hlen & Hall).
    assert (Hrest : List.Forall (fun x => exists t', In t' (t :: topics) /\ scored_from text t' x)
                      (score_topics topics title_l text)).
    { revert IHf. apply List.Forall_impl. intros x (t' & Hin & Hx).
      exists t'. split; [now right | exact Hx]. }
    destruct (Z.ltb_spec 0 score) as [Hpos | Hneg].
    + split; [simpl; now apply sublist_skip |].
      constructor; [| exact Hrest].
      exists t. split; [now left |]. unfold scored_from; simpl.
      repeat split; try assumption; lia.
    + split; [now apply sublist_cons | exact Hrest].
Qed.

Lemma max_by_first_max {A} (key : A -> Q) (xs pre mid : list A) (b : A) :
  List.Forall (fun y => (key y < key b)%Q) pre ->
  List.Forall (fun y => (key y <= key b)%Q) mid ->
  exists pre' post',
    (pre ++ b :: mid ++ xs)%list = (pre' ++ max_by key b xs :: post')%list
    /\ List.Forall (fun y => (key y < key (max_by key b xs))%Q) pre'
    /\ List.Forall (fun y => (key y <= key (max_by key b xs))%Q) post'.
Proof.
  revert pre mid b. induction xs as [| x xs IH]; intros pre mid b Hpre Hmid; simpl.
  - exists pre, mid. rewrite app_nil_r. now repeat split.
  - destruct (Qltb (key b) (key x)) eqn:E.
    + apply Qltb_lt in E.
      destruct (IH (pre ++ b :: mid)%list [] x) as (pre' & post' & Heq & H1 & H2).
      * apply List.Forall_app. split.
        -- revert Hpre. apply List.Forall_impl. intros y Hy.
           eapply Qlt_trans; eassumption.
        -- constructor; [exact E |].
           revert Hmid. apply List.Forall_impl. intros y Hy.
           eapply Qle_lt_trans; eassumption.
      * constructor.
      * exists pre', post'. split; [| now split].
        rewrite <- Heq. simpl. now rewrite <- !app_assoc.
    + apply Qltb_ge in E.
      destruct (IH pre (mid ++ [x])%list b Hpre) as (pre' & post' & Heq & H1 & H2).
      * apply List.Forall_app. split; [exact Hmid | now repeat constructor].
      * exists pre', post'. split; [| now split].
        rewrite <- Heq. now rewrite <- !app_assoc.
Qed.

(** X1. The shape of every classification: relevant exactly when not
    noise; a noise result has relevance 0, no topic and a reason; a relevant
    one has no reason, lists its topics in taxonomy order, and its primary
    topic is one of them, labelled as the taxonomy labels it. *)
Theorem classification_shape (item : Item) :
  let c := classify_item item in
  is_ai_relevant c = negb (is_noise c)
  /\ (is_noise c = true ->
      relevance_score c = 0%Q /\ primary_topic c = None /\ primary_topic_label c = None
      /\ all_topics c = [] /\ topic_details c = []
      /\ exists reason, filter_reason c = Some reason)
  /\ (is_noise c = false ->
      filter_reason c = None
      /\ all_topics c = map fst (topic_details c)
      /\ sublist (all_topics c) (map topic_id AI_TOPICS)
      /\ exists t s,
           In t AI_TOPICS /\ In (topic_id t, s) (topic_details c)
           /\ primary_topic c = Some (topic_id t)
           /\ primary_topic_label c = Some (label t)).
Proof.
  unfold classify_item.
  destruct (List.find _ NOISE_KEYWORDS) as [kw |];
    [cbn; repeat split; try discriminate; eauto |].
  pose proof (score_topics_entries AI_TOPICS (lowered (title item)) (item_text item))
    as [Hsub Hall].
  destruct (score_topics AI_TOPICS _ _) as [| first others] eqn:E;
    [cbn; repeat split; try discriminate; eauto |].
  cbn [is_ai_relevant is_noise negb relevance_score primary_topic primary_topic_label
       all_topics topic_details filter_reason].
  split; [reflexivity |]. split; [discriminate |]. intros _.
  split; [reflexivity |]. split; [reflexivity |]. split; [exact Hsub |].
  destruct (max_by_first_max (fun x => weighted_score (snd x)) others [] [] first)
    as (pre & post & Heq & _ & _); [constructor | constructor |].
  simpl in Heq.
  set (m := max_by (fun x => weighted_score (snd x)) first others) in *.
  assert (Hin : In m (first :: others)).
  { rewrite Heq. apply in_or_app. right. now left. }
  destruct (proj1 (List.Forall_forall _ _) Hall m Hin) as (t & Ht & Hid & Hlab & _).
  exists t, (snd m). split; [exact Ht |].
  rewrite <- Hid, <- Hlab, <- surjective_pairing. now repeat split.
Qed.

(** X2. The primary topic is the first of the best-scored topics: every
    topic listed before it has a strictly smaller weighted score and every
    topic listed after it has at most its weighted score. *)
Theorem primary_topic_is_first_maximum (item : Item) (id : string) :
  primary_topic (classify_item item) = Some id ->
  exists before s after,
    topic_details (classify_item item) = (before ++ (id, s) :: after)%list
    /\ List.Forall (fun x => (weighted_score (snd x) < weighted_score s)%Q) before
    /\ List.Forall (fun x => (weighted_score (snd x) <= weighted_score s)%Q) after.
Proof.
  unfold classify_item.
  destruct (List.find _ NOISE_KEYWORDS) as [kw |]; [discriminate |].
  destruct (score_topics AI_TOPICS _ _) as [| first others]; [discriminate |].
  cbn [primary_topic topic_details]. intros [= <-].
  destruct (max_by_first_max (fun x => weighted_score (snd x)) others [] [] first)
    as (pre & post & Heq & Hpre & Hpost); [constructor | constructor |].
  simpl in Heq.
  exists pre, (snd (max_by (fun x => weighted_score (snd x)) first others)), post.
  rewrite <- surjective_pairing. now repeat split.
Qed.

Lemma primary_topic_is_first_maximum_witness :
  exists before s after,
    topic_details (classify_item benchmark_item) = (before ++ ("llm", s) :: after)%list
    /\ List.Forall (fun x => (weighted_score (snd x) < weighted_score s)%Q) before
    /\ List.Forall (fun x => (weighted_score (snd x) <= weighted_score s)%Q) after.
Proof.
  apply (primary_topic_is_first_maximum benchmark_item "llm"). reflexivity.
Defined.

(** X3. Every per-topic entry of a classification belongs to a taxonomy
    topic: it carries that topic's label, its weighted score is the raw
    score times the topic weight, its matched keywords are keywords of the
    topic, in order, that occur in the text, and its raw score is positive,
    at least the number of matched keywords and at most twice that. *)
Theorem topic_detail_scores (item : Item) (id : string) (s : TopicScore) :
  In (id, s) (topic_details (classify_item item)) ->
  exists t,
    In t AI_TOPICS /\ id = topic_id t /\ ts_label s = label t
    /\ weighted_score s = (inject_Z (raw_score s) * weight t)%Q
    /\ sublist (matched_keywords s) (keywords t)
    /\ 0 < raw_score s
    /\ Z.of_nat (length (matched_keywords s)) <= raw_score s
       <= 2 * Z.of_nat (length (matched_keywords s))
    /\ List.Forall (fun kw => contains kw (item_text item) = true) (matched_keywords s).
Proof.
  unfold classify_item.
  destruct (List.find _ NOISE_KEYWORDS) as [kw |]; [intros []|].
  pose proof (score_topics_entries AI_TOPICS (lowered (title item)) (item_text item))
    as [_ Hall].
  destruct (score_topics AI_TOPICS _ _) as [| first others]; [intros [] |].
  cbn [topic_details]. intros Hin.
  destruct (proj1 (List.Forall_forall _ _) Hall _ Hin)
    as (t & Ht & Hid & Hlab & Hw & Hsub & Hpos & Hlen & Hocc).
  simpl in *. exists t. repeat split; try assumption; try lia.
  assert (Hlow : List.Forall (fun kw => lower kw = kw) (keywords t)).
  { exact (proj1 (List.Forall_forall _ _) topic_keywords_lowercase t Ht). }
  apply List.Forall_forall. intros kw Hkw.
  rewrite <- (proj1 (List.Forall_forall _ _) Hlow kw).
  - exact (proj1 (List.Forall_forall _ _) Hocc kw Hkw).
  - exact (sublist_In _ _ kw Hsub Hkw).
Qed.

Lemma topic_detail_scores_witness :
  exists t,
    In t AI_TOPICS /\ "ml_research" = topic_id t /\ "ML Research" = label t
    /\ (18 # 10 = inject_Z 2 * weight t)%Q
    /\ sublist ["benchmark"] (keywords t)
    /\ 0 < 2
    /\ Z.of_nat (length ["benchmark"]) <= 2 <= 2 * Z.of_nat (length ["benchmark"])
    /\ List.Forall (fun kw => contains kw (item_text benchmark_item) = true) ["benchmark"].
Proof.
  apply (topic_detail_scores benchmark_item "ml_research"
           {| raw_score := 2; weighted_score := 18 # 10;
              matched_keywords := ["benchmark"]; ts_label := "ML Research" |}).
  vm_compute. right. left. reflexivity.
Defined.

(** X4. A record whose title and body are absent, [None] or empty is
    noise, with the reason that no keyword matched. *)
Theorem blank_record_is_unmatched_noise (item : Item) :
  lowered (title item) = "" -> lowered (content item) = "" ->
  classify_item item = noise_result "no_ai_keywords_matched".
Proof.
  intros Ht Hc. unfold classify_item, item_text. rewrite Ht, Hc.
  vm_compute. reflexivity.
Qed.

Lemma blank_record_is_unmatched_noise_witness :
  classify_item blank_item = noise_result "no_ai_keywords_matched".
Proof.
  apply (blank_record_is_unmatched_noise blank_item); reflexivity.
Defined.

(** * Further properties of the engagement analyzer *)

Lemma calculate_engagement_quality_fields (now : Z) (item : Item) (e : Engagement) :
  calculate_engagement_quality now item = Ok e ->
  let likes := count_or_0 (impressions_likes item) in
  let replies := count_or_0 (impressions_replies item) in
  let ratio := spec_engagement_ratio item in
  is_flamewar e = Qltb (15 # 10) ratio && (100 <? replies)
  /\ is_high_signal e = (200 <? likes) && Qltb ratio (5 # 10)
  /\ is_emerging e = (50 <? likes) && (likes <? 200) && Qltb ratio (8 # 10)
  /\ velocity e = round2 (fst (age_of now likes (published_at item)))
  /\ hours_old e = round1 (snd (age_of now likes (published_at item)))
  /\ quality_tier e
     = _calculate_quality_tier likes ratio (is_flamewar e)
         (fst (age_of now likes (published_at item))).
Proof.
  unfold calculate_engagement_quality, spec_engagement_ratio.
  destruct (kids_of item) as [kids | ex]; cbn [mbind result_bind]; [| discriminate].
  destruct (age_of now _ _) as [v h]. intros [= <-]. cbn. repeat split.
Qed.

(** X5. The quality flags exclude each other: a flamewar is neither high
    signal nor emerging, a high-signal record is not emerging; a flamewar
    has more than 100 replies; and the tier is skip_flamewar exactly for
    flamewars. *)
Theorem engagement_flags_exclusive (now : Z) (item : Item) (e : Engagement) :
  calculate_engagement_quality now item = Ok e ->
  (is_flamewar e = true -> is_high_signal e = false /\ is_emerging e = false)
  /\ (is_high_signal e = true -> is_emerging e = false)
  /\ (is_flamewar e = true -> 100 < count_or_0 (impressions_replies item))
  /\ (quality_tier e = skip_flamewar <-> is_flamewar e = true).
Proof.
  intros H. destruct (calculate_engagement_quality_fields now item e H)
    as (Hf & Hh & He & _ & _ & Ht).
  set (ratio := spec_engagement_ratio item) in *.
  set (likes := count_or_0 (impressions_likes item)) in *.
  assert (Hex : forall a b, (a <= b)%Q -> Qltb b ratio = true -> Qltb ratio a = false).
  { intros a b Hab Hb. apply Qltb_lt in Hb. apply Qltb_ge.
    apply Qlt_le_weak. eapply Qle_lt_trans; eassumption. }
  split; [| split; [| split]].
  - rewrite Hf, Hh, He. intros [Hr _]%andb_true_iff.
    rewrite (Hex (5 # 10) (15 # 10)), (Hex (8 # 10) (15 # 10)) by (assumption || discriminate).
    now rewrite !andb_false_r.
  - rewrite Hh, He. intros [Hl _]%andb_true_iff.
    apply Z.ltb_lt in Hl. destruct (Z.ltb_spec likes 200); [lia |].
    now rewrite andb_false_r.
  - rewrite Hf. intros [_ Hr]%andb_true_iff. now apply Z.ltb_lt.
  - rewrite Ht. unfold _calculate_quality_tier.
    destruct (is_flamewar e); [tauto |].
    repeat match goal with |- context [if ?b then _ else _] => destruct b end;
      split; discriminate.
Qed.

Lemma engagement_flags_exclusive_witness :
  exists e,
    calculate_engagement_quality 0 flamewar_item = Ok e
    /\ is_flamewar e = true /\ is_high_signal e = false /\ is_emerging e = false
    /\ quality_tier e = skip_flamewar.
Proof.
  eexists. split; [vm_compute; reflexivity |].
  destruct (engagement_flags_exclusive 0 flamewar_item _ eq_refl) as (H1 & _ & _ & H4).
  split; [reflexivity |].
  destruct (H1 eq_refl) as [Hh He].
  split; [exact Hh |]. split; [exact He |]. apply H4. reflexivity.
Defined.

(** X6. The analyzer fails in one case only: it raises AttributeError
    exactly when the [metadata] key holds [None]; with the key absent or
    holding a dict, whatever the other keys hold, it returns a result. *)
Theorem engagement_raises_iff_metadata_none (now : Z) (item : Item) :
  (metadata item = Null /\ calculate_engagement_quality now item = Raise AttributeError)
  \/ (metadata item <> Null /\ exists e, calculate_engagement_quality now item = Ok e).
Proof.
  destruct (metadata item) as [| | m] eqn:E.
  - right. split; [discriminate |]. apply calculate_engagement_quality_ok. now rewrite E.
  - left. split; [reflexivity |]. unfold calculate_engagement_quality, kids_of.
    now rewrite E.
  - right. split; [discriminate |]. apply calculate_engagement_quality_ok. now rewrite E.
Qed.

(** X7. The tier as thresholds on likes: apart from flamewars, a record is
    low exactly up to 30 likes, moderate exactly from 31 to 100 likes, and
    good, high_quality or trending exactly above 100 likes; high_quality
    needs more than 300 likes. *)
Theorem quality_tier_like_thresholds (now : Z) (item : Item) (e : Engagement) :
  calculate_engagement_quality now item = Ok e ->
  let likes := count_or_0 (impressions_likes item) in
  (quality_tier e = low <-> is_flamewar e = false /\ likes <= 30)
  /\ (quality_tier e = moderate <-> is_flamewar e = false /\ 30 < likes <= 100)
  /\ (quality_tier e = good \/ quality_tier e = high_quality
      \/ quality_tier e = trending_must_include
      <-> is_flamewar e = false /\ 100 < likes)
  /\ (quality_tier e = high_quality -> 300 < likes).
Proof.
  intros H likes. destruct (calculate_engagement_quality_fields now item e H)
    as (_ & _ & _ & _ & _ & Ht).
  fold likes in Ht. rewrite Ht. unfold _calculate_quality_tier.
  destruct (is_flamewar e).
  { repeat split; try discriminate; intros; intuition discriminate. }
  destruct (Z.ltb_spec 100 likes), (Z.ltb_spec 300 likes), (Z.ltb_spec 30 likes);
    try lia;
    destruct (Qltb 20 _), (Qltb _ (6 # 10)); cbn [andb];
    repeat split; intros; try discriminate; try lia; try tauto;
    intuition (discriminate || lia).
Qed.

Lemma quality_tier_like_thresholds_witness :
  exists e,
    calculate_engagement_quality 0 faint_item = Ok e
    /\ quality_tier e = moderate
    /\ is_flamewar e = false /\ 30 < 40 <= 100.
Proof.
  eexists. split; [vm_compute; reflexivity |]. split; [reflexivity |].
  destruct (quality_tier_like_thresholds 0 faint_item _ eq_refl) as (_ & H & _).
  apply H. reflexivity.
Defined.

(** X8. Without a usable timestamp a record counts as 24 hours old with
    velocity 0, whatever the clock says, and is never trending. *)
Theorem untimed_record_defaults (now : Z) (item : Item) (e : Engagement) :
  published_at item = None ->
  calculate_engagement_quality now item = Ok e ->
  (hours_old e == 24)%Q /\ (velocity e == 0)%Q
  /\ quality_tier e <> trending_must_include.
Proof.
  intros Hp H. destruct (calculate_engagement_quality_fields now item e H)
    as (_ & _ & _ & Hv & Hh & Ht).
  rewrite Hp in *. cbn in Hv, Hh, Ht.
  rewrite Hv, Hh, Ht. split; [reflexivity |]. split; [reflexivity |].
  unfold _calculate_quality_tier.
  change (Qltb 20 0) with false. cbn [andb].
  repeat match goal with |- context [if ?b then _ else _] => destruct b end;
    discriminate.
Qed.

Lemma untimed_record_defaults_witness :
  exists e,
    calculate_engagement_quality (5 * one_hour) benchmark_item = Ok e
    /\ (hours_old e == 24)%Q /\ (velocity e == 0)%Q
    /\ quality_tier e <> trending_must_include.
Proof.
  eexists. split; [vm_compute; reflexivity |].
  apply (untimed_record_defaults (5 * one_hour) benchmark_item); reflexivity.
Defined.

Lemma py_max_one (x : Q) : (1 <= py_max x 1)%Q /\ (x <= py_max x 1)%Q.
Proof.
  unfold py_max. destruct (Qltb x 1) eqn:E.
  - apply Qltb_lt in E. split; [apply Qle_refl | now apply Qlt_le_weak].
  - apply Qltb_ge in E. split; [exact E | apply Qle_refl].
Qed.

Lemma round2_between (x : Q) (n : Z) :
  (0 <= x)%Q -> (x <= inject_Z n)%Q -> (0 <= round2 x)%Q /\ (round2 x <= inject_Z n)%Q.
Proof.
  intros H0 Hn.
  assert (Hb : 0 <= round_half_even (x * 100) <= n * 100).
  { apply round_half_even_bounds.
    - apply Qmult_le_0_compat; [exact H0 | discriminate].
    - rewrite inject_Z_mult. apply Qmult_le_compat_r; [exact Hn | discriminate]. }
  unfold round2, Qle; simpl. lia.
Qed.

(** X9. The hour floor keeps velocity within the likes: for a record
    with non-negative likes the stored velocity lies between 0 and the
    number of likes, however recent or future-dated the record is. *)
Theorem velocity_within_likes (now : Z) (item : Item) (e : Engagement) :
  0 <= count_or_0 (impressions_likes item) ->
  calculate_engagement_quality now item = Ok e ->
  (0 <= velocity e)%Q /\ (velocity e <= inject_Z (count_or_0 (impressions_likes item)))%Q.
Proof.
  intros Hl H. destruct (calculate_engagement_quality_fields now item e H)
    as (_ & _ & _ & Hv & _).
  rewrite Hv. set (likes := count_or_0 (impressions_likes item)) in *.
  assert (Hq : (0 <= inject_Z likes)%Q) by (change 0%Q with (inject_Z 0); now rewrite <- Zle_Qle).
  unfold age_of. destruct (published_at item) as [p |]; cbn [fst].
  - set (h := (((now - p) # 1000000) / 3600)%Q).
    destruct (py_max_one h) as [H1 _].
    assert (Hpos : (0 < py_max h 1)%Q) by (eapply Qlt_le_trans; [| exact H1]; reflexivity).
    apply round2_between.
    + apply Qle_shift_div_l; [exact Hpos |]. now rewrite Qmult_0_l.
    + apply Qle_shift_div_r; [exact Hpos |].
      rewrite (Qmult_comm (inject_Z likes)).
      rewrite <- (Qmult_1_l (inject_Z likes)) at 1.
      apply Qmult_le_compat_r; [exact H1 | exact Hq].
  - apply round2_between; [apply Qle_refl | exact Hq].
Qed.

Lemma velocity_within_likes_witness :
  exists e,
    calculate_engagement_quality 1 threaded_item = Ok e
    /\ (0 <= velocity e)%Q /\ (velocity e <= inject_Z 240)%Q
    /\ velocity e = (24000 # 100)%Q.
Proof.
  eexists. split; [vm_compute; reflexivity |].
  destruct (velocity_within_likes 1 threaded_item _ ltac:(vm_compute; discriminate) eq_refl)
    as [H0 H1].
  split; [exact H0 |]. split; [exact H1 | reflexivity].
Defined.

(** * Further properties of the editorial layer *)

(** X10. The newsletter priority is between 1 and 5.  Priority 1 is for
    trending records above relevance 0.6 only, priority 2 for high-quality
    records above relevance 0.5 only, priority 3 for good and high-quality
    records only; low, moderate and flamewar records get 4 or 5, and so does
    a trending record of relevance at most 0.6. *)
Theorem priority_range_and_tiers (c : Classification) (e : Engagement) :
  let p := _calculate_priority c e in
  1 <= p <= 5
  /\ (p = 1 <-> quality_tier e = trending_must_include /\ (6 # 10 < relevance_score c)%Q)
  /\ (p = 2 <-> quality_tier e = high_quality /\ (5 # 10 < relevance_score c)%Q)
  /\ (p = 3 <-> quality_tier e = good
                \/ (quality_tier e = high_quality /\ ~ (5 # 10 < relevance_score c)%Q))
  /\ (p = 4 \/ p = 5 <->
      quality_tier e = low \/ quality_tier e = moderate \/ quality_tier e = skip_flamewar
      \/ (quality_tier e = trending_must_include /\ ~ (6 # 10 < relevance_score c)%Q)).
Proof.
  unfold _calculate_priority, tier_eqb.
  rewrite <- !Qltb_lt.
  destruct (quality_tier e); cbn;
    destruct (Qltb (6 # 10) (relevance_score c)), (Qltb (5 # 10) (relevance_score c)),
             (Qltb (3 # 10) (relevance_score c));
    cbn; repeat split; intros; try lia; try discriminate; try tauto;
    intuition (discriminate || lia || congruence).
Qed.

Lemma append_if_phrases (b : bool) (x : string) (xs : list string) :
  In x signal_phrases -> List.Forall (fun y => In y signal_phrases) xs ->
  List.Forall (fun y => In y signal_phrases) (append_if b x xs).
Proof.
  intros Hx Hxs. unfold append_if. destruct b; [| exact Hxs].
  apply List.Forall_app. split; [exact Hxs |]. constructor; [exact Hx | constructor].
Qed.

Lemma Forall_firstn_keep {A} (P : A -> Prop) (n : nat) (l : list A) :
  List.Forall P l -> List.Forall P (firstn n l).
Proof.
  intros H. revert n. induction H as [| x l Hx _ IH]; intros [| n]; simpl;
    constructor; auto.
Qed.

(** X11. When [_generate_why_matters] answers, the answer is one or two of
    its seven fixed phrases joined by a semicolon and a space: never empty,
    never more than two signals. *)
Theorem why_matters_shape (item : Item) (c : Classification) (e : Engagement) (s : string) :
  _generate_why_matters item c e = Ok s ->
  exists signals,
    s = join "; " signals
    /\ (1 <= length signals <= 2)%nat
    /\ List.Forall (fun x => In x signal_phrases) signals.
Proof.
  unfold _generate_why_matters.
  destruct (get_default (impressions_likes item) 0) as [likes |]; [| discriminate].
  destruct (primary_topic c) as [primary |]; [| discriminate].
  set (signals := append_if _ "commercial AI application" _).
  assert (Hall : List.Forall (fun y => In y signal_phrases) signals).
  { unfold signals. repeat apply append_if_phrases;
      try (unfold signal_phrases; simpl; auto 10); constructor. }
  intros [= <-].
  set (final := match signals with [] => ["worth monitoring"] | _ :: _ => signals end).
  assert (Hfinal : List.Forall (fun y => In y signal_phrases) final /\ final <> []).
  { unfold final. destruct signals; [| split; [exact Hall | discriminate]].
    split; [| discriminate]. constructor; [| constructor].
    unfold signal_phrases; simpl; auto 10. }
  exists (firstn 2 final). split; [reflexivity |]. split.
  - destruct Hfinal as [_ Hne]. destruct final as [| a [| b l]]; simpl; [congruence | lia | lia].
  - apply Forall_firstn_keep. apply Hfinal.
Qed.

Lemma why_matters_shape_witness :
  exists signals,
    "directly relevant to AI practitioners" = join "; " signals
    /\ (1 <= length signals <= 2)%nat
    /\ List.Forall (fun x => In x signal_phrases) signals.
Proof.
  apply (why_matters_shape (sample "GPT notes" 5 0 None)
           (classification (low_llm_item "GPT notes"))
           (engagement_quality (low_llm_item "GPT notes"))).
  vm_compute. reflexivity.
Defined.

Lemma generate_editorial_clean (item : Item) (c : Classification) (e : Engagement)
    (topic : string) :
  title item <> Null -> impressions_likes item <> Null -> primary_topic c = Some topic ->
  exists ed,
    generate_editorial item c e = Ok ed
    /\ newsletter_priority ed = _calculate_priority c e.
Proof.
  intros Ht Hl Hp.
  unfold generate_editorial, _generate_one_liner, _generate_why_matters. rewrite Hp.
  destruct (title item) as [| | t]; [| contradiction |];
    (destruct (impressions_likes item) as [| | n]; [| contradiction |]);
    cbn [get_default mbind result_bind]; eexists; split; reflexivity.
Qed.

(** X12. The editorial layer fails in exactly three cases, tested in this
    order: a title holding [None] (AttributeError), likes holding [None]
    (TypeError), a classification without primary topic (TypeError).  In
    every other case it answers, with the priority and the audience that
    the classification and the engagement determine. *)
Theorem generate_editorial_outcome (item : Item) (c : Classification) (e : Engagement) :
  match title item, impressions_likes item, primary_topic c with
  | Null, _, _ => generate_editorial item c e = Raise AttributeError
  | _, Null, _ => generate_editorial item c e = Raise TypeError
  | _, _, None => generate_editorial item c e = Raise TypeError
  | _, _, Some _ =>
      exists ed,
        generate_editorial item c e = Ok ed
        /\ newsletter_priority ed = _calculate_priority c e
        /\ audience_fit ed = _determine_audience c
  end.
Proof.
  unfold generate_editorial, _generate_one_liner, _generate_why_matters.
  destruct (title item) as [| | t], (impressions_likes item) as [| | n],
           (primary_topic c) as [topic |];
    cbn [get_default mbind result_bind]; try reflexivity;
    eexists; (split; [reflexivity | split; reflexivity]).
Qed.

Lemma classify_item_relevant_topic (item : Item) :
  is_noise (classify_item item) = false ->
  exists topic, primary_topic (classify_item item) = Some topic.
Proof.
  unfold classify_item.
  destruct (List.find _ NOISE_KEYWORDS); [discriminate |].
  destruct (score_topics AI_TOPICS _ _); [discriminate |]. cbn. eauto.
Qed.

Lemma funnel_body_clean (cfg : Config) (now : Z) (item : Item) (st : FunnelState) :
  is_noise (classify_item item) = true \/ clean_record item ->
  exists st', funnel_body cfg now item st = Ok st'.
Proof.
  intros Hc. unfold funnel_body.
  destruct (is_noise (classify_item item)) eqn:Hn; [eauto |].
  destruct Hc as [Hc | (Ht & Hl & Hm)]; [discriminate |].
  destruct (calculate_engagement_quality_ok now item Hm) as [e ->].
  cbn [mbind result_bind].
  destruct (tier_eqb _ _); [eauto |]. destruct (Qltb _ _); [eauto |].
  destruct (classify_item_relevant_topic item Hn) as [topic Htopic].
  destruct (generate_editorial_clean item (classify_item item) e topic Ht Hl Htopic)
    as (ed & -> & _).
  cbn [mbind result_bind]. eauto.
Qed.

(** X13. [curate] returns an output for every batch in which each record
    either is classified as noise or holds no [None] under [title],
    [impressions_likes] and [metadata]: absent keys, empty strings, zero or
    negative counts and missing timestamps never make it raise. *)
Theorem curate_total_on_clean_records (cfg : Config) (clock : nat -> Z)
    (raw_items : list Item) :
  List.Forall (fun item => is_noise (classify_item item) = true \/ clean_record item)
    raw_items ->
  exists out, curate cfg clock raw_items = Ok out.
Proof.
  intros Hclean.
  assert (Hf : forall i st, exists st', funnel cfg clock i raw_items st = Ok st').
  { induction Hclean as [| item items Hitem _ IH]; intros i st; cbn [funnel]; [eauto |].
    destruct (funnel_body_clean cfg (clock i) item st Hitem) as [st1 ->].
    cbn [mbind result_bind]. apply IH. }
  unfold curate. destruct (Hf 0%nat empty_funnel) as [st ->].
  cbn [mbind result_bind]. eauto.
Qed.

Lemma curate_total_on_clean_records_witness :
  exists out,
    curate default_config (fun _ => one_hour)
      [blank_item; grammar_item; timed_item; threaded_item; flamewar_item] = Ok out.
Proof.
  apply (curate_total_on_clean_records default_config (fun _ => one_hour)).
  repeat (apply List.Forall_cons;
          [first [right; repeat split; discriminate | left; vm_compute; reflexivity] |]).
  apply List.Forall_nil.
Defined.

(** * Further properties of the pipeline *)

Lemma engagement_tier_flamewar (now : Z) (item : Item) (e : Engagement) :
  calculate_engagement_quality now item = Ok e ->
  quality_tier e <> skip_flamewar -> is_flamewar e = false.
Proof.
  intros H. destruct (calculate_engagement_quality_fields now item e H)
    as (_ & _ & _ & _ & _ & Ht).
  rewrite Ht. unfold _calculate_quality_tier.
  destruct (is_flamewar e); [congruence | reflexivity].
Qed.

Lemma classify_item_relevant_flag (item : Item) :
  is_ai_relevant (classify_item item) = negb (is_noise (classify_item item)).
Proof.
  unfold classify_item.
  destruct (List.find _ NOISE_KEYWORDS); [reflexivity |].
  destruct (score_topics AI_TOPICS _ _); reflexivity.
Qed.

Lemma calculate_priority_range (c : Classification) (e : Engagement) :
  1 <= _calculate_priority c e <= 5.
Proof.
  unfold _calculate_priority.
  repeat match goal with |- context [if ?b then _ else _] => destruct b end; lia.
Qed.

Lemma generate_editorial_priority (item : Item) (c : Classification) (e : Engagement)
    (ed : Editorial) :
  generate_editorial item c e = Ok ed -> newsletter_priority ed = _calculate_priority c e.
Proof.
  unfold generate_editorial.
  destruct (_generate_one_liner _ _); cbn [mbind result_bind]; [| discriminate].
  destruct (_generate_why_matters _ _ _); cbn [mbind result_bind]; [| discriminate].
  now intros [= <-].
Qed.

Lemma funnel_body_built (cfg : Config) (now : Z) (item : Item) (all : list Item)
    (st st' : FunnelState) :
  funnel_body cfg now item st = Ok st' -> In item all ->
  List.Forall (built_from all) (curated st) -> List.Forall (built_from all) (curated st').
Proof.
  unfold funnel_body. intros H Hin Hst.
  destruct (is_noise (classify_item item)); [now injection H as <- |].
  destruct (calculate_engagement_quality now item) as [e | ex] eqn:He;
    cbn [mbind result_bind] in H; [| discriminate].
  destruct (tier_eqb _ _); [now injection H as <- |].
  destruct (Qltb _ _); [now injection H as <- |].
  destruct (generate_editorial item _ e) as [ed | ex] eqn:Hed;
    cbn [mbind result_bind] in H; [| discriminate].
  injection H as <-. cbn. apply List.Forall_app. split; [exact Hst |].
  constructor; [| constructor].
  unfold built_from; cbn. repeat split; eauto.
Qed.

Lemma funnel_built (cfg : Config) (clock : nat -> Z) (all items : list Item) :
  forall i st st',
    funnel cfg clock i items st = Ok st' -> (forall x, In x items -> In x all) ->
    List.Forall (built_from all) (curated st) -> List.Forall (built_from all) (curated st').
Proof.
  induction items as [| item items IH]; intros i st st'; cbn [funnel].
  - now intros [= <-].
  - destruct (funnel_body cfg (clock i) item st) as [st1 | ex] eqn:E;
      cbn [mbind result_bind]; [| discriminate].
    intros H Hin Hst. apply (IH _ _ _ H).
    + intros x Hx. apply Hin. now right.
    + apply (funnel_body_built _ _ _ _ _ _ E); [apply Hin; now left | exact Hst].
Qed.

Lemma survivor_publishable (cfg : Config) (all : list Item) (c : CuratedItem) :
  built_from all c -> survivor cfg c -> publishable cfg c.
Proof.
  intros (_ & Hc & [now He] & Hed) (_ & Hn & Ht & Hr).
  unfold publishable. split; [exact Hn |]. split.
  { rewrite Hc in *. rewrite classify_item_relevant_flag, Hn. reflexivity. }
  split; [exact (engagement_tier_flamewar _ _ _ He Ht) |].
  split; [exact Ht |]. split; [now apply Qnot_lt_le |].
  rewrite (generate_editorial_priority _ _ _ _ Hed). apply calculate_priority_range.
Qed.

Lemma sublist_Forall {A} (P : A -> Prop) (l1 l2 : list A) :
  sublist l1 l2 -> List.Forall P l2 -> List.Forall P l1.
Proof.
  intros Hs Hl. apply List.Forall_forall. intros x Hx.
  exact (proj1 (List.Forall_forall _ _) Hl x (sublist_In _ _ x Hs Hx)).
Qed.

(** X14. Every item of the pool, hence every published item, was built
    from a record of the batch and is publishable: relevant and not noise,
    not a flamewar, of relevance at least [min_relevance], with a priority
    between 1 and 5. *)
Theorem pool_items_are_publishable (cfg : Config) (clock : nat -> Z)
    (raw_items : list Item) (out : Output) :
  curate cfg clock raw_items = Ok out ->
  List.Forall (fun c => built_from raw_items c /\ publishable cfg c) (pool_items out)
  /\ List.Forall (fun c => built_from raw_items c /\ publishable cfg c) (published_items out).
Proof.
  intros Hout.
  destruct (curate_Ok _ _ _ _ Hout) as (st & Hf & Hpool & Hpub & _).
  assert (Hall : List.Forall (fun c => built_from raw_items c /\ publishable cfg c) (curated st)).
  { destruct (funnel_survivors _ _ _ _ _ _ Hf) as [_ Hs].
    pose proof (funnel_built cfg clock raw_items raw_items _ _ _ Hf (fun x H => H)
                  (List.Forall_nil _)) as Hb.
    specialize (Hs (List.Forall_nil _)).
    apply List.Forall_forall. intros c Hc.
    pose proof (proj1 (List.Forall_forall _ _) Hb c Hc) as Hbc.
    pose proof (proj1 (List.Forall_forall _ _) Hs c Hc) as Hsc.
    split; [exact Hbc | exact (survivor_publishable cfg raw_items c Hbc Hsc)]. }
  assert (Hp : List.Forall (fun c => built_from raw_items c /\ publishable cfg c) (pool_items out)).
  { rewrite Hpool. destruct (slice_to_prefix (pool_size cfg) (sort_curated (curated st)))
      as [rest Hrest].
    assert (Hsorted : List.Forall (fun c => built_from raw_items c /\ publishable cfg c)
                        (sort_curated (curated st))).
    { eapply Permutation_Forall; [apply sort_stable_perm | exact Hall]. }
    rewrite Hrest in Hsorted. apply List.Forall_app in Hsorted. tauto. }
  split; [exact Hp |].
  rewrite Hpub.
  destruct (publish_scan_from_pool (publish_count cfg) (pool_items out) empty_scan)
    as (taken & _ & Ht & _ & -> & _).
  simpl. exact (sublist_Forall _ _ _ Ht Hp).
Qed.

Lemma pool_items_are_publishable_witness :
  exists out,
    curate default_config (fun _ => one_hour)
      [grammar_item; timed_item; flamewar_item; threaded_item] = Ok out
    /\ length (pool_items out) = 2%nat
    /\ List.Forall (fun c => built_from [grammar_item; timed_item; flamewar_item; threaded_item] c
                             /\ publishable default_config c) (pool_items out).
Proof.
  eexists. split; [vm_compute; reflexivity |]. split; [reflexivity |].
  apply (pool_items_are_publishable default_config (fun _ => one_hour)
           [grammar_item; timed_item; flamewar_item; threaded_item]).
  vm_compute. reflexivity.
Defined.

(** * Further properties of the publish scan *)

Lemma topic_count_snoc (t : option string) (l : list CuratedItem) (c : CuratedItem) :
  topic_count t (l ++ [c])%list
  = (topic_count t l
     + if bool_decide (primary_topic (classification c) = t) then 1 else 0)%nat.
Proof.
  unfold topic_count. rewrite List.filter_app, length_app. simpl.
  destruct (bool_decide _); reflexivity.
Qed.

Lemma admit_item_consistent (st : ScanState) (item : CuratedItem) :
  (stale_low item -> keeps_low st item = true) ->
  scan_consistent st -> scan_consistent (admit_item st item).
Proof.
  intros Hgate [Hcount Hgap]. split.
  - intros t. unfold admit_item; cbn [published theme_counts].
    rewrite topic_count_snoc. unfold count_of at 1.
    destruct (decide (primary_topic (classification item) = t)) as [-> | Hne].
    + rewrite lookup_insert_eq, bool_decide_eq_true_2 by reflexivity.
      cbn. rewrite Hcount. lia.
    + rewrite lookup_insert_ne, bool_decide_eq_false_2 by assumption.
      fold (count_of (theme_counts st) t). rewrite Hcount. lia.
  - intros before c after. unfold admit_item; cbn [published].
    destruct after as [| y after' _] using rev_ind.
    + intros [<- <-]%app_inj_tail Hstale.
      rewrite <- Hcount.
      pose proof (Hgate Hstale) as Hk. apply keeps_low_iff in Hk.
      destruct Hk as [Hfresh | Hzero]; [| exact Hzero].
      destruct Hstale as [_ Hold]. contradiction.
    + rewrite app_comm_cons, app_assoc. intros [Heq _]%app_inj_tail Hstale.
      exact (Hgap before c after' Heq Hstale).
Qed.

Lemma publish_scan_consistent (publish_count : Z) (pool : list CuratedItem) (st : ScanState) :
  scan_consistent st -> scan_consistent (publish_scan publish_count pool st).
Proof.
  revert st. induction pool as [| item pool IH]; intros st Hst; cbn [publish_scan]; [exact Hst |].
  destruct (tier_eqb (quality_tier (engagement_quality item)) low
            && negb (keeps_low st item)) eqn:E.
  - apply IH. exact Hst.
  - assert (Hadm : scan_consistent (admit_item st item)).
    { apply admit_item_consistent; [| exact Hst].
      intros [Hlow _]. unfold tier_eqb in E. rewrite Hlow in E.
      rewrite bool_decide_eq_true_2 in E by reflexivity. cbn in E.
      now apply negb_false_iff in E. }
    destruct (publish_count <=? _); [exact Hadm | now apply IH].
Qed.

Lemma empty_scan_consistent : scan_consistent empty_scan.
Proof.
  split.
  - intros t. reflexivity.
  - intros before c after H. destruct before; discriminate H.
Qed.

(** X15. The per-topic counters of the scan are exact: for every topic,
    the counter at the end is the number of published items of that
    topic. *)
Theorem theme_counts_count_published (publish_count : Z) (pool : list CuratedItem)
    (t : option string) :
  count_of (theme_counts (publish_scan publish_count pool empty_scan)) t
  = topic_count t (published (publish_scan publish_count pool empty_scan)).
Proof.
  apply (publish_scan_consistent publish_count pool empty_scan empty_scan_consistent).
Qed.



Lemma publish_scan_coverage (publish_count : Z) (pool : list CuratedItem) (st : ScanState) :
  let final := publish_scan publish_count pool st in
  (length (published final) + length (hidden final)
   <= length (published st) + length (hidden st) + length pool)%nat
  /\ (Z.of_nat (length (published final)) < publish_count ->
      (length (published final) + length (hidden final)
       = length (published st) + length (hidden st) + length pool)%nat).
Proof.
  revert st. induction pool as [| item pool IH]; intros st; cbn [publish_scan length].
  - cbn. lia.
  - destruct (tier_eqb _ low && negb (keeps_low st item)).
    + assert (Hp : published (hide st item) = published st) by reflexivity.
      assert (Hh : length (hidden (hide st item)) = S (length (hidden st))).
      { unfold hide. cbn. rewrite length_app. cbn. lia. }
      specialize (IH (hide st item)). cbn zeta in *.
      rewrite Hp, Hh in IH. lia.
    + assert (Hlen : length (published (admit_item st item)) = S (length (published st))).
      { unfold admit_item. cbn. rewrite length_app. cbn. lia. }
      assert (Hhid : hidden (admit_item st item) = hidden st) by reflexivity.
      destruct (Z.leb_spec publish_count
                  (Z.of_nat (length (published (admit_item st item))))) as [Hle | Hgt].
      * cbn zeta. rewrite Hhid, Hlen in *. lia.
      * specialize (IH (admit_item st item)). cbn zeta in *.
        rewrite Hhid, Hlen in IH. lia.
Qed.

(** X17. Every pool item is accounted for at most once: published and
    hidden items together are never more than the pool, and when the scan
    ends below [publish_count] every pool item is either published or
    hidden. *)
Theorem publish_scan_accounts_for_pool (publish_count : Z) (pool : list CuratedItem) :
  let final := publish_scan publish_count pool empty_scan in
  (length (published final) + length (hidden final) <= length pool)%nat
  /\ (Z.of_nat (length (published final)) < publish_count ->
      (length (published final) + length (hidden final) = length pool)%nat).
Proof.
  pose proof (publish_scan_coverage publish_count pool empty_scan) as H.
  cbn in H. exact H.
Qed.

(** X18. The first item of the pool is always published, whatever its
    tier and whatever [publish_count]; with [publish_count] at most 1 it is
    the only published item and nothing is hidden. *)
Theorem top_item_always_published (publish_count : Z) (c : CuratedItem)
    (rest : list CuratedItem) :
  (exists more, published (publish_scan publish_count (c :: rest) empty_scan) = c :: more)
  /\ (publish_count <= 1 ->
      published (publish_scan publish_count (c :: rest) empty_scan) = [c]
      /\ hidden (publish_scan publish_count (c :: rest) empty_scan) = []).
Proof.
  assert (Hk : keeps_low empty_scan c = true).
  { apply keeps_low_iff. right. reflexivity. }
  cbn [publish_scan]. rewrite Hk, andb_false_r.
  change (length (published (admit_item empty_scan c))) with 1%nat.
  destruct (Z.leb_spec publish_count (Z.of_nat 1)) as [Hle | Hgt].
  - split; [exists []; reflexivity |]. intros _. split; reflexivity.
  - split; [| lia].
    destruct (publish_scan_extends publish_count rest (admit_item empty_scan c))
      as (p & _ & -> & _).
    exists p. reflexivity.
Qed.

Lemma publish_scan_without_low (publish_count : Z) (pool : list CuratedItem) (st : ScanState) :
  List.Forall (fun c => quality_tier (engagement_quality c) <> low) pool ->
  published (publish_scan publish_count pool st)
  = (published st
     ++ firstn (Z.to_nat (Z.max (publish_count - Z.of_nat (length (published st))) 1)) pool)%list
  /\ hidden (publish_scan publish_count pool st) = hidden st.
Proof.
  intros Hpool. revert st.
  induction Hpool as [| item pool Hitem _ IH]; intros st; cbn [publish_scan].
  - rewrite firstn_nil, app_nil_r. now split.
  - assert (Ht : tier_eqb (quality_tier (engagement_quality item)) low = false).
    { unfold tier_eqb. now apply bool_decide_eq_false_2. }
    rewrite Ht. cbn [andb].
    assert (Hlen : length (published (admit_item st item)) = S (length (published st))).
    { unfold admit_item. cbn. rewrite length_app. cbn. lia. }
    destruct (Z.leb_spec publish_count
                (Z.of_nat (length (published (admit_item st item))))) as [Hle | Hgt].
    + rewrite Hlen in Hle.
      replace (Z.max (publish_count - Z.of_nat (length (published st))) 1) with 1 by lia.
      split; reflexivity.
    + destruct (IH (admit_item st item)) as [Hp Hh]. rewrite Hp, Hh. rewrite Hlen in *.
      split; [| reflexivity].
      replace (Z.to_nat (Z.max (publish_count - Z.of_nat (length (published st))) 1))
        with (S (Z.to_nat (Z.max (publish_count - Z.of_nat (S (length (published st)))) 1)))
        by lia.
      unfold admit_item. cbn. now rewrite <- app_assoc.
Qed.

(** X19. When the pool holds no low-tier item the scan publishes the
    first [publish_count] pool items, or the first one when
    [publish_count] is below 1, in pool order, and hides nothing. *)
Theorem pool_without_low_is_truncated (publish_count : Z) (pool : list CuratedItem) :
  List.Forall (fun c => quality_tier (engagement_quality c) <> low) pool ->
  published (publish_scan publish_count pool empty_scan)
  = firstn (Z.to_nat (Z.max publish_count 1)) pool
  /\ hidden (publish_scan publish_count pool empty_scan) = [].
Proof.
  intros Hpool.
  destruct (publish_scan_without_low publish_count pool empty_scan Hpool) as [Hp Hh].
  rewrite Hp, Hh. cbn. now rewrite Z.sub_0_r.
Qed.

Lemma pool_without_low_is_truncated_witness :
  exists out,
    curate default_config (fun _ => one_hour) [timed_item; threaded_item] = Ok out
    /\ length (pool_items out) = 2%nat
    /\ List.Forall (fun c => quality_tier (engagement_quality c) <> low) (pool_items out)
    /\ published (publish_scan 1 (pool_items out) empty_scan)
       = firstn (Z.to_nat (Z.max 1 1)) (pool_items out)
    /\ hidden (publish_scan 1 (pool_items out) empty_scan) = [].
Proof.
  eexists. split; [vm_compute; reflexivity |]. split; [reflexivity |].
  match goal with
  | |- List.Forall ?P ?l /\ _ => assert (H : List.Forall P l)
  end; [| split; [exact H |]].
  - cbn [pool_items]. repeat constructor; discriminate.
  - apply (pool_without_low_is_truncated 1). exact H.
Defined.

(** * Further properties of the output document *)

Lemma theme_counts_sum (ths : list (Theme * list CuratedItem)) :
  list_sum (map snd (map (fun '(theme, xs) => (theme, length xs)) ths))
  = length (concat (map snd ths)).
Proof.
  induction ths as [| [t xs] ths IH]; simpl; [reflexivity |].
  rewrite length_app, IH. reflexivity.
Qed.

(** X20. The statistics agree with the collections of the output: each
    count is the length of its collection, the per-theme counts add up to
    the number of published items, published and hidden items together are
    at most the pool, and the pool with the three filter buckets is at most
    the input. *)
Theorem stats_agree_with_collections (cfg : Config) (clock : nat -> Z)
    (raw_items : list Item) (out : Output) :
  curate cfg clock raw_items = Ok out ->
  let s := stats out in
  Stats.input_items s = length raw_items
  /\ Stats.pool_items s = length (pool_items out)
  /\ Stats.published_items s = length (published_items out)
  /\ Stats.filtered_noise s = length (noise (out_filtered out))
  /\ Stats.filtered_low_relevance s = length (low_relevance (out_filtered out))
  /\ Stats.filtered_flamewar s = length (flamewar (out_filtered out))
  /\ Stats.filtered_low_quality s = length (low_quality_hidden (out_filtered out))
  /\ Stats.themes s = map (fun '(theme, xs) => (theme, length xs)) (themes out)
  /\ list_sum (map snd (Stats.themes s)) = Stats.published_items s
  /\ (Stats.published_items s + Stats.filtered_low_quality s <= Stats.pool_items s)%nat
  /\ (Stats.pool_items s + Stats.filtered_noise s + Stats.filtered_low_relevance s
      + Stats.filtered_flamewar s <= Stats.input_items s)%nat.
Proof.
  unfold curate.
  destruct (funnel cfg clock 0 raw_items empty_funnel) as [st | ex] eqn:Hf;
    cbn [mbind result_bind]; [| discriminate].
  intros [= <-]. cbn zeta.
  cbn [stats pool_items published_items themes out_filtered
       noise low_relevance flamewar low_quality_hidden
       Stats.input_items Stats.pool_items Stats.published_items Stats.filtered_noise
       Stats.filtered_low_relevance Stats.filtered_flamewar Stats.filtered_low_quality
       Stats.themes].
  set (pool := slice_to (pool_size cfg) (sort_curated (curated st))).
  set (scan := publish_scan (publish_count cfg) pool empty_scan).
  do 8 (split; [reflexivity |]).
  split.
  { rewrite theme_counts_sum. apply Permutation_length, group_by_theme_perm. }
  split.
  { pose proof (publish_scan_coverage (publish_count cfg) pool empty_scan) as [H _].
    cbn in H. exact H. }
  destruct (funnel_survivors _ _ _ _ _ _ Hf) as [Htotal _].
  unfold funnel_total in Htotal. cbn in Htotal.
  destruct (slice_to_prefix (pool_size cfg) (sort_curated (curated st))) as [rest Hrest].
  fold pool in Hrest.
  assert (Hlen : length (curated st) = (length pool + length rest)%nat).
  { rewrite <- length_app, <- Hrest. apply Permutation_length, sort_stable_perm. }
  lia.
Qed.

Lemma stats_agree_with_collections_witness :
  exists out,
    curate default_config (fun _ => one_hour)
      [grammar_item; timed_item; flamewar_item; threaded_item] = Ok out
    /\ list_sum (map snd (Stats.themes (stats out))) = Stats.published_items (stats out)
    /\ Stats.themes (stats out) = [(AI_and_LLMs, 2%nat)].
Proof.
  eexists. split; [vm_compute; reflexivity |].
  pose proof (stats_agree_with_collections default_config (fun _ => one_hour)
                [grammar_item; timed_item; flamewar_item; threaded_item] _
                ltac:(vm_compute; reflexivity)) as H.
  cbn zeta in H. destruct H as (_ & _ & _ & _ & _ & _ & _ & _ & Hsum & _).
  split; [exact Hsum | reflexivity].
Defined.

(** X21. The size of the pool follows from the configuration and the
    filter counts: with a non-negative [pool_size] it is the smaller of
    [pool_size] and the number of survivors; a negative [pool_size] does
    not fail but drops that many survivors from the end of the ranking. *)
Theorem pool_size_from_counts (cfg : Config) (clock : nat -> Z)
    (raw_items : list Item) (out : Output) :
  curate cfg clock raw_items = Ok out ->
  Stats.pool_items (stats out)
  = if 0 <=? pool_size cfg
    then Nat.min (Z.to_nat (pool_size cfg)) (stats_survivors (stats out))
    else (stats_survivors (stats out) - Z.to_nat (- pool_size cfg))%nat.
Proof.
  unfold curate.
  destruct (funnel cfg clock 0 raw_items empty_funnel) as [st | ex] eqn:Hf;
    cbn [mbind result_bind]; [| discriminate].
  intros [= <-]. unfold stats_survivors.
  cbn [stats noise low_relevance flamewar
       Stats.input_items Stats.pool_items Stats.filtered_noise
       Stats.filtered_low_relevance Stats.filtered_flamewar].
  destruct (funnel_survivors _ _ _ _ _ _ Hf) as [Htotal _].
  unfold funnel_total in Htotal. cbn in Htotal.
  assert (Hlen : length (sort_curated (curated st)) = length (curated st)).
  { symmetry. apply Permutation_length, sort_stable_perm. }
  replace (length raw_items - length (noise (filtered_out st))
           - length (low_relevance (filtered_out st))
           - length (flamewar (filtered_out st)))%nat
    with (length (curated st)) by lia.
  unfold slice_to. destruct (0 <=? pool_size cfg); rewrite length_firstn, Hlen; lia.
Qed.

Lemma pool_size_from_counts_witness :
  exists out,
    curate {| min_relevance := 2 # 10; pool_size := -1; publish_count := 8 |}
      (fun _ => one_hour) [grammar_item; timed_item; flamewar_item; threaded_item] = Ok out
    /\ Stats.pool_items (stats out) = 1%nat
    /\ stats_survivors (stats out) = 2%nat.
Proof.
  eexists. split; [vm_compute; reflexivity |].
  split; [| reflexivity].
  rewrite (pool_size_from_counts
             {| min_relevance := 2 # 10; pool_size := -1; publish_count := 8 |}
             (fun _ => one_hour) [grammar_item; timed_item; flamewar_item; threaded_item] _
             ltac:(vm_compute; reflexivity)).
  reflexivity.
Defined.

(** * Further properties of the theme grouper *)

Lemma theme_append_keys (t t' : Theme) (x : CuratedItem)
    (acc : list (Theme * list CuratedItem)) :
  In t' (map fst (theme_append t x acc)) <-> t' = t \/ In t' (map fst acc).
Proof.
  induction acc as [| [t0 xs0] acc IH]; simpl.
  - intuition congruence.
  - destruct (bool_decide (t0 = t)) eqn:E; simpl.
    + apply bool_decide_eq_true_1 in E. subst t0. intuition congruence.
    + rewrite IH. tauto.
Qed.

Lemma theme_append_NoDup (t : Theme) (x : CuratedItem)
    (acc : list (Theme * list CuratedItem)) :
  List.NoDup (map fst acc) -> List.NoDup (map fst (theme_append t x acc)).
Proof.
  induction acc as [| [t0 xs0] acc IH]; simpl; intros H.
  - constructor; [tauto | constructor].
  - inversion H as [| ? ? Hnotin Hrest]; subst.
    destruct (bool_decide (t0 = t)) eqn:E; simpl.
    + now constructor.
    + apply bool_decide_eq_false_1 in E. constructor; [| now apply IH].
      rewrite theme_append_keys. intros [-> | Hin]; [congruence | contradiction].
Qed.

Lemma theme_append_entries (t t' : Theme) (x : CuratedItem) (xs' : list CuratedItem)
    (acc : list (Theme * list CuratedItem)) :
  List.NoDup (map fst acc) -> In (t', xs') (theme_append t x acc) ->
  (t' <> t /\ In (t', xs') acc)
  \/ (t' = t /\ ((exists xs, In (t, xs) acc /\ xs' = (xs ++ [x])%list)
                 \/ (~ In t (map fst acc) /\ xs' = [x]))).
Proof.
  induction acc as [| [t0 xs0] acc IH]; simpl; intros Hnd Hin.
  - destruct Hin as [[= <- <-] | []]. right. split; [reflexivity |]. right. tauto.
  - inversion Hnd as [| ? ? Hnotin Hrest]; subst.
    destruct (bool_decide (t0 = t)) eqn:E.
    + apply bool_decide_eq_true_1 in E. subst t0.
      destruct Hin as [[= <- <-] | Hin].
      * right. split; [reflexivity |]. left. exists xs0. split; [now left | reflexivity].
      * left. split; [| now right].
        intros ->. apply Hnotin. apply in_map_iff. now exists (t, xs').
    + apply bool_decide_eq_false_1 in E.
      destruct Hin as [[= <- <-] | Hin].
      * left. split; [exact E | now left].
      * destruct (IH Hrest Hin) as [[Hne H] | [-> [(xs & H & ->) | [Hno ->]]]].
        -- left. split; [exact Hne | now right].
        -- right. split; [reflexivity |]. left. exists xs. split; [now right | reflexivity].
        -- right. split; [reflexivity |]. right. split; [| reflexivity].
           intros [K | K]; [congruence | contradiction].
Qed.

Lemma filter_in_theme_snoc (t : Theme) (l : list CuratedItem) (x : CuratedItem) :
  List.filter (in_theme t) (l ++ [x])%list
  = (List.filter (in_theme t) l ++ if in_theme t x then [x] else [])%list.
Proof.
  rewrite List.filter_app. simpl. destruct (in_theme t x); reflexivity.
Qed.

Lemma grouped_step (l : list CuratedItem) (x : CuratedItem)
    (acc : list (Theme * list CuratedItem)) :
  grouped l acc -> grouped (l ++ [x])%list (theme_append (theme_of x) x acc).
Proof.
  intros (Hnd & Hent & Hkeys). split; [now apply theme_append_NoDup |]. split.
  - intros t xs Hin. rewrite filter_in_theme_snoc. unfold in_theme at 2.
    destruct (theme_append_entries _ _ _ _ _ Hnd Hin)
      as [[Hne H] | [-> [(xs0 & H & ->) | [Hno ->]]]].
    + destruct (Hent t xs H) as [Hxs Heq].
      rewrite bool_decide_eq_false_2 by congruence.
      rewrite app_nil_r. now split.
    + destruct (Hent _ xs0 H) as [_ Heq].
      rewrite bool_decide_eq_true_2 by reflexivity.
      split; [now destruct xs0 | now rewrite <- Heq].
    + rewrite bool_decide_eq_true_2 by reflexivity.
      split; [discriminate |].
      assert (Hnone : List.filter (in_theme (theme_of x)) l = []).
      { destruct (List.filter (in_theme (theme_of x)) l) as [| c rest] eqn:Ef;
          [reflexivity |].
        assert (Hc : In c (List.filter (in_theme (theme_of x)) l)) by (rewrite Ef; now left).
        apply List.filter_In in Hc. destruct Hc as [Hc Ht].
        apply bool_decide_eq_true_1 in Ht. exfalso. apply Hno.
        rewrite <- Ht. now apply Hkeys. }
      now rewrite Hnone.
  - intros c Hc. rewrite theme_append_keys.
    apply in_app_or in Hc. destruct Hc as [Hc | [<- | []]]; [right; now apply Hkeys | now left].
Qed.

Lemma grouped_fold (items l : list CuratedItem) (acc : list (Theme * list CuratedItem)) :
  grouped l acc ->
  grouped (l ++ items)%list
    (fold_left (fun themes item => theme_append (theme_of item) item themes) items acc).
Proof.
  revert l acc. induction items as [| x items IH]; intros l acc H; simpl.
  - now rewrite app_nil_r.
  - replace (l ++ x :: items)%list with ((l ++ [x]) ++ items)%list
      by (now rewrite <- app_assoc).
    apply IH. now apply grouped_step.
Qed.

Lemma priority_sort_sorted (xs : list CuratedItem) :
  StronglySorted (fun a b => priority_of a <= priority_of b)
    (sort_stable (fun x y => priority_of x <? priority_of y) xs).
Proof.
  apply StronglySorted_weaken
    with (R := not_after (fun x y => priority_of x <? priority_of y)).
  - intros a b H. unfold not_after in H. apply Z.ltb_ge in H. exact H.
  - apply sort_stable_sorted.
    + intros x y H. apply Z.ltb_lt in H. apply Z.ltb_ge. lia.
    + intros x y z H1 H2. apply Z.ltb_ge in H1, H2. apply Z.ltb_ge. lia.
Qed.

(** X22. The theme grouper partitions its input: the theme keys are
    distinct, every item's theme is a key, no theme list is empty, and the
    list under a theme holds exactly the items of that theme, in ascending
    priority, items of equal priority in their input order. *)
Theorem group_by_theme_structure (items : list CuratedItem) :
  List.NoDup (map fst (group_by_theme items))
  /\ (forall c, In c items -> In (theme_of c) (map fst (group_by_theme items)))
  /\ (forall t ys,
        In (t, ys) (group_by_theme items) ->
        ys <> []
        /\ Permutation ys (List.filter (in_theme t) items)
        /\ StronglySorted (fun a b => priority_of a <= priority_of b) ys
        /\ forall p, List.filter (same_priority p) ys
                     = List.filter (same_priority p) (List.filter (in_theme t) items)).
Proof.
  unfold group_by_theme.
  set (step := fun themes item => theme_append (theme_of item) item themes).
  assert (Hg : grouped items (fold_left step items [])).
  { apply (grouped_fold items [] []). split; [constructor |]. split; intros; contradiction. }
  destruct Hg as (Hnd & Hent & Hkeys).
  set (ths := fold_left step items []) in *.
  assert (Hfst : map fst (map (fun '(theme, xs) =>
                    (theme, sort_stable (fun x y => priority_of x <? priority_of y) xs)) ths)
                 = map fst ths).
  { rewrite map_map. apply map_ext. now intros [t xs]. }
  rewrite Hfst. split; [exact Hnd |]. split; [exact Hkeys |].
  intros t ys Hin. apply in_map_iff in Hin. destruct Hin as ([t0 xs] & [= <- <-] & Hin).
  destruct (Hent t0 xs Hin) as [Hne Heq].
  pose proof (sort_stable_perm (fun x y => priority_of x <? priority_of y) xs) as Hperm.
  split.
  { intros K. rewrite K in Hperm. apply Permutation_sym, Permutation_nil in Hperm.
    contradiction. }
  split; [rewrite <- Heq; now symmetry |].
  split; [apply priority_sort_sorted |].
  intros p. rewrite <- Heq. apply sort_stable_filter.
  intros a b Ha Hb. unfold same_priority in *.
  apply Z.eqb_eq in Ha, Hb. apply Z.ltb_ge. lia.
Qed.

Lemma group_by_theme_structure_witness :
  exists ys,
    In (AI_and_LLMs, ys)
      (group_by_theme [low_llm_item "GPT notes"; low_llm_item "Claude notes"])
    /\ ys <> []
    /\ Permutation ys
         (List.filter (in_theme AI_and_LLMs)
            [low_llm_item "GPT notes"; low_llm_item "Claude notes"])
    /\ ys = [low_llm_item "GPT notes"; low_llm_item "Claude notes"].
Proof.
  eexists.
  assert (Hin : In (AI_and_LLMs, _)
                  (group_by_theme [low_llm_item "GPT notes"; low_llm_item "Claude notes"]))
    by (vm_compute; left; reflexivity).
  split; [exact Hin |].
  destruct (group_by_theme_structure [low_llm_item "GPT notes"; low_llm_item "Claude notes"])
    as (_ & _ & H).
  destruct (H _ _ Hin) as (Hne & Hperm & _).
  split; [exact Hne |]. split; [exact Hperm | reflexivity].
Defined.

(** * Further properties of the relevance filter *)

Lemma classify_item_relevance_nonneg (item : Item) :
  (0 <= relevance_score (classify_item item))%Q.
Proof.
  destruct (is_noise (classify_item item)) eqn:Hn.
  - destruct (classify_item_noise item Hn) as [-> _]. apply Qle_refl.
  - rewrite (classify_item_relevant item Hn).
    apply round2_unit_interval; apply py_min_unit.
    all: apply Qle_shift_div_l; [reflexivity |].
    all: rewrite Qmult_0_l, py_sum_Qsum,
           (score_topics_sum item AI_TOPICS topic_keywords_lowercase).
    all: apply spec_total_nonneg, topic_weights_nonneg.
Qed.

Lemma funnel_body_no_low_relevance (cfg : Config) (now : Z) (item : Item)
    (st st' : FunnelState) :
  (min_relevance cfg <= 0)%Q ->
  funnel_body cfg now item st = Ok st' ->
  low_relevance (filtered_out st) = [] -> low_relevance (filtered_out st') = [].
Proof.
  intros Hmin. unfold funnel_body.
  destruct (is_noise (classify_item item)); [now intros [= <-] |].
  destruct (calculate_engagement_quality now item) as [e | ex];
    cbn [mbind result_bind]; [| discriminate].
  destruct (tier_eqb _ _); [now intros [= <-] |].
  assert (Hr : Qltb (relevance_score (classify_item item)) (min_relevance cfg) = false).
  { apply Qltb_ge. eapply Qle_trans; [exact Hmin | apply classify_item_relevance_nonneg]. }
  rewrite Hr.
  destruct (generate_editorial item _ e); cbn [mbind result_bind]; [| discriminate].
  now intros [= <-].
Qed.

(** X23. With [min_relevance] at 0 or below the relevance filter lets
    every record through: the low_relevance bucket of the output is
    empty. *)
Theorem no_low_relevance_at_zero_threshold (cfg : Config) (clock : nat -> Z)
    (raw_items : list Item) (out : Output) :
  (min_relevance cfg <= 0)%Q ->
  curate cfg clock raw_items = Ok out ->
  low_relevance (out_filtered out) = [].
Proof.
  intros Hmin Hout.
  destruct (curate_Ok _ _ _ _ Hout) as (st & Hf & _ & _ & _ & _ & -> & _).
  assert (H : forall items i st0 st1,
             funnel cfg clock i items st0 = Ok st1 ->
             low_relevance (filtered_out st0) = [] -> low_relevance (filtered_out st1) = []).
  { induction items as [| item items IH]; intros i st0 st1; cbn [funnel].
    - now intros [= <-].
    - destruct (funnel_body cfg (clock i) item st0) as [st2 | ex] eqn:E;
        cbn [mbind result_bind]; [| discriminate].
      intros H0 H1. apply (IH _ _ _ H0).
      exact (funnel_body_no_low_relevance _ _ _ _ _ Hmin E H1). }
  exact (H _ _ _ _ Hf eq_refl).
Qed.

Lemma no_low_relevance_at_zero_threshold_witness :
  exists out,
    curate {| min_relevance := 0; pool_size := 25; publish_count := 8 |} (fun _ => 0)
      [faint_item; grammar_item] = Ok out
    /\ low_relevance (out_filtered out) = []
    /\ length (pool_items out) = 1%nat.
Proof.
  eexists. split; [vm_compute; reflexivity |]. split; [| reflexivity].
  apply (no_low_relevance_at_zero_threshold
           {| min_relevance := 0; pool_size := 25; publish_count := 8 |} (fun _ => 0)
           [faint_item; grammar_item]).
  - discriminate.
  - vm_compute. reflexivity.
Defined.

(** * Properties of the scraper's deduplication *)

Lemma NoDup_snoc {A} (l : list A) (a : A) :
  List.NoDup l -> ~ In a l -> List.NoDup (l ++ [a])%list.
Proof.
  intros Hl Ha. apply List.NoDup_app; [exact Hl | |].
  - constructor; [intros [] | constructor].
  - intros x Hx [<- | []]. contradiction.
Qed.

Lemma dict_mem_In (k : string) (d : list (string * RawItem)) :
  dict_mem k d = true <-> In k (map fst d).
Proof.
  unfold dict_mem. rewrite existsb_exists, in_map_iff. split.
  - intros (kv & Hin & Heq). apply String.eqb_eq in Heq. now exists kv.
  - intros (kv & Heq & Hin). exists kv. split; [exact Hin | now apply String.eqb_eq].
Qed.

Lemma dict_update_keys (k : string) (f : RawItem -> RawItem) (d : list (string * RawItem)) :
  map fst (dict_update k f d) = map fst d.
Proof.
  induction d as [| [k' it] d IH]; simpl; [reflexivity |].
  destruct (String.eqb k' k); simpl; [reflexivity | now rewrite IH].
Qed.

Lemma dict_update_entries (k k' : string) (f : RawItem -> RawItem) (it' : RawItem)
    (d : list (string * RawItem)) :
  List.NoDup (map fst d) -> In (k', it') (dict_update k f d) ->
  (k' <> k /\ In (k', it') d)
  \/ (k' = k /\ exists it0, In (k, it0) d /\ it' = f it0).
Proof.
  induction d as [| [k0 it0] d IH]; simpl; [tauto |].
  intros Hnd. inversion Hnd as [| ? ? Hnotin Hrest]; subst.
  destruct (String.eqb_spec k0 k) as [-> | Hne].
  - intros [[= <- <-] | Hin].
    + right. split; [reflexivity |]. exists it0. split; [now left | reflexivity].
    + left. split; [| now right].
      intros ->. apply Hnotin, in_map_iff. now exists (k, it').
  - intros [[= <- <-] | Hin].
    + left. split; [exact Hne | now left].
    + destruct (IH Hrest Hin) as [[H1 H2] | [-> (it1 & H2 & ->)]].
      * left. split; [exact H1 | now right].
      * right. split; [reflexivity |]. exists it1. split; [now right | reflexivity].
Qed.

Lemma with_section_sections (sec : string) (it : RawItem) (l : list string) :
  sections it = Some l -> List.NoDup l ->
  source_id (with_section sec it) = source_id it
  /\ record (with_section sec it) = record it
  /\ exists l', sections (with_section sec it) = Some l' /\ List.NoDup l'
                /\ forall s, In s l' <-> In s l \/ s = sec.
Proof.
  intros Hl Hnd. unfold with_section. rewrite Hl.
  change (default [] (Some l)) with l.
  destruct (existsb (String.eqb sec) l) eqn:E.
  - split; [reflexivity |]. split; [reflexivity |].
    exists l. split; [exact Hl |]. split; [exact Hnd |].
    apply existsb_exists in E. destruct E as (s0 & Hs0 & Heq).
    apply String.eqb_eq in Heq. subst s0.
    intros s. split; [tauto | intros [H | ->]; assumption].
  - split; [reflexivity |]. split; [reflexivity |].
    exists (l ++ [sec])%list. split; [reflexivity |]. split.
    + apply NoDup_snoc; [exact Hnd |]. intros Hs.
      assert (K : existsb (String.eqb sec) l = true).
      { apply existsb_exists. exists sec. split; [exact Hs | apply String.eqb_refl]. }
      congruence.
    + intros s. rewrite in_app_iff. simpl. intuition congruence.
Qed.

Lemma merge_item_merged (sec : string) (seen : list (string * string))
    (d : list (string * RawItem)) (item : RawItem) :
  merged seen d -> merged (seen ++ [(sec, source_id item)])%list (merge_item sec d item).
Proof.
  intros (Hnd & Hkeys & Hent). unfold merge_item.
  destruct (dict_mem (source_id item) d) eqn:Hmem; cbn [negb].
  - apply dict_mem_In in Hmem.
    split; [now rewrite dict_update_keys |]. split.
    + intros k. rewrite dict_update_keys, Hkeys. split.
      * intros [s Hs]. exists s. apply in_or_app. now left.
      * intros [s Hs]. apply in_app_or in Hs. destruct Hs as [Hs | [[= <- <-] | []]].
        -- now exists s.
        -- now apply Hkeys.
    + intros k it Hin.
      destruct (dict_update_entries _ _ _ _ _ Hnd Hin) as [[Hne H] | [-> (it0 & H & ->)]].
      * destruct (Hent k it H) as (Hid & l & Hl & Hndl & Hsec).
        split; [exact Hid |]. exists l. split; [exact Hl |]. split; [exact Hndl |].
        intros s. rewrite Hsec, in_app_iff. simpl. intuition congruence.
      * destruct (Hent _ it0 H) as (Hid & l & Hl & Hndl & Hsec).
        destruct (with_section_sections sec it0 l Hl Hndl) as (Hid' & _ & l' & Hl' & Hnd' & Hs').
        split; [congruence |]. exists l'. split; [exact Hl' |]. split; [exact Hnd' |].
        intros s. rewrite Hs', Hsec, in_app_iff. simpl. intuition congruence.
  - assert (Hnot : ~ In (source_id item) (map fst d)).
    { intros K. apply dict_mem_In in K. congruence. }
    split.
    + rewrite map_app. simpl. now apply NoDup_snoc.
    + split.
      * intros k. rewrite map_app, in_app_iff, Hkeys. simpl. split.
        -- intros [[s Hs] | [<- | []]].
           ++ exists s. apply in_or_app. now left.
           ++ exists sec. apply in_or_app. right. now left.
        -- intros [s Hs]. apply in_app_or in Hs. destruct Hs as [Hs | [[= <- <-] | []]].
           ++ left. now exists s.
           ++ right. now left.
      * intros k it Hin. apply in_app_or in Hin. destruct Hin as [Hin | [[= <- <-] | []]].
        -- destruct (Hent k it Hin) as (Hid & l & Hl & Hndl & Hsec).
           split; [exact Hid |]. exists l. split; [exact Hl |]. split; [exact Hndl |].
           intros s. rewrite Hsec, in_app_iff. simpl.
           assert (k <> source_id item).
           { intros ->. apply Hnot, in_map_iff. now exists (source_id item, it). }
           intuition congruence.
        -- split; [reflexivity |]. exists [sec]. split; [reflexivity |].
           split; [constructor; [intros [] | constructor] |].
           intros s. rewrite in_app_iff. simpl. split.
           ++ intros [<- | []]. right. now left.
           ++ intros [Hs | [[= <-] | []]]; [| now left].
              exfalso. apply Hnot, Hkeys. now exists s.
Qed.

Lemma merge_items_merged (sec : string) (items : list RawItem) :
  forall seen d,
    merged seen d ->
    merged (seen ++ map (fun it => (sec, source_id it)) items)%list
      (fold_left (merge_item sec) items d).
Proof.
  induction items as [| item items IH]; intros seen d H; simpl.
  - now rewrite app_nil_r.
  - replace (seen ++ (sec, source_id item) :: map (fun it => (sec, source_id it)) items)%list
      with ((seen ++ [(sec, source_id item)])
            ++ map (fun it => (sec, source_id it)) items)%list
      by (now rewrite <- app_assoc).
    apply IH. now apply merge_item_merged.
Qed.

Lemma merge_sections_merged (fetched : list (string * list RawItem)) :
  merged (occurrences fetched) (merge_sections fetched).
Proof.
  unfold merge_sections.
  assert (H : forall seen d,
             merged seen d ->
             merged (seen ++ occurrences fetched)%list
               (fold_left (fun all_items '(section_key, items) =>
                             fold_left (merge_item section_key) items all_items)
                          fetched d)).
  { induction fetched as [| [sec items] fetched IH]; intros seen d Hm.
    - simpl. now rewrite app_nil_r.
    - cbn [fold_left]. unfold occurrences. cbn [map concat].
      rewrite app_assoc. apply IH. now apply merge_items_merged. }
  apply (H [] []). split; [constructor |]. split.
  - intros k. simpl. split; [tauto | intros [sec []]].
  - intros k it [].
Qed.

Lemma merged_values_ids (seen : list (string * string)) (d : list (string * RawItem)) :
  merged seen d -> map source_id (map snd d) = map fst d.
Proof.
  intros (_ & _ & Hent). rewrite map_map. apply map_ext_in.
  intros [k it] Hin. destruct (Hent k it Hin) as [Hid _]. exact Hid.
Qed.

(** X24. The merge leaves one item per story: the ids of the unique items
    are distinct, they are exactly the ids fetched in some section, and the
    unique items are never more than the items fetched. *)
Theorem unique_items_have_distinct_ids (fetched : list (string * list RawItem)) :
  List.NoDup (map source_id (unique_items fetched))
  /\ (forall id, In id (map source_id (unique_items fetched))
                 <-> exists sec, In (sec, id) (occurrences fetched))
  /\ (length (unique_items fetched) <= length (occurrences fetched))%nat.
Proof.
  pose proof (merge_sections_merged fetched) as Hm.
  unfold unique_items. rewrite (merged_values_ids _ _ Hm).
  destruct Hm as (Hnd & Hkeys & _).
  split; [exact Hnd |]. split; [exact Hkeys |].
  rewrite length_map, <- (length_map fst), <- (length_map snd (occurrences fetched)).
  apply List.NoDup_incl_length; [exact Hnd |].
  intros k Hk. apply Hkeys in Hk. destruct Hk as [sec Hsec].
  apply in_map_iff. now exists (sec, k).
Qed.

(** X25. Every unique item records the sections it was fetched in: its
    [sections] list is set, holds no section twice, and holds a section
    exactly when an item with its id was fetched in that section. *)
Theorem unique_items_list_their_sections (fetched : list (string * list RawItem))
    (it : RawItem) :
  In it (unique_items fetched) ->
  exists l,
    sections it = Some l /\ List.NoDup l
    /\ forall sec, In sec l <-> In (sec, source_id it) (occurrences fetched).
Proof.
  intros Hin. unfold unique_items in Hin. apply in_map_iff in Hin.
  destruct Hin as ([k it'] & <- & Hin).
  destruct (merge_sections_merged fetched) as (_ & _ & Hent).
  destruct (Hent k it' Hin) as (Hid & l & Hl & Hnd & Hsec).
  exists l. simpl. rewrite Hid. split; [exact Hl |]. split; [exact Hnd | exact Hsec].
Qed.

Lemma unique_items_list_their_sections_witness :
  exists it l,
    In it (unique_items fetched_sample)
    /\ source_id it = "101"
    /\ sections it = Some l /\ List.NoDup l
    /\ (forall sec, In sec l <-> In (sec, source_id it) (occurrences fetched_sample))
    /\ l = ["top_stories"; "best_stories"; "new_stories"]
    /\ map source_id (unique_items fetched_sample) = ["101"; "102"; "103"].
Proof.
  eexists.
  assert (Hin : In _ (unique_items fetched_sample)) by (vm_compute; left; reflexivity).
  destruct (unique_items_list_their_sections fetched_sample _ Hin) as (l & Hl & Hnd & Hsec).
  exists l. split; [exact Hin |]. split; [reflexivity |].
  split; [exact Hl |]. split; [exact Hnd |]. split; [exact Hsec |].
  split; [| reflexivity].
  vm_compute in Hl. now injection Hl as <-.
Defined.

Lemma find_app_first {A} (f : A -> bool) (l l' : list A) :
  List.find f (l ++ l')%list
  = match List.find f l with
    | Some x => Some x
    | None => List.find f l'
    end.
Proof.
  induction l as [| x l IH]; simpl; [reflexivity |].
  destruct (f x); [reflexivity | exact IH].
Qed.

Lemma merge_item_first_kept (sec : string) (seen : list (string * string))
    (processed : list RawItem) (d : list (string * RawItem)) (item : RawItem) :
  merged seen d -> first_kept processed d ->
  first_kept (processed ++ [item])%list (merge_item sec d item).
Proof.
  intros (Hnd & _ & Hent) [Hids Hrec]. unfold merge_item.
  destruct (dict_mem (source_id item) d) eqn:Hmem; cbn [negb].
  - apply dict_mem_In in Hmem. split.
    + intros x Hx. rewrite dict_update_keys.
      apply in_app_or in Hx. destruct Hx as [Hx | [<- | []]]; [now apply Hids | exact Hmem].
    + intros k it Hin. unfold first_with_id. rewrite find_app_first.
      destruct (dict_update_entries _ _ _ _ _ Hnd Hin) as [[Hne H] | [-> (it0 & H & ->)]].
      * destruct (Hrec k it H) as (x & Hx & Hr). unfold first_with_id in Hx.
        rewrite Hx. now exists x.
      * destruct (Hrec _ it0 H) as (x & Hx & Hr). unfold first_with_id in Hx.
        rewrite Hx. exists x. split; [reflexivity |].
        destruct (Hent _ it0 H) as (_ & l & Hl & Hndl & _).
        destruct (with_section_sections sec it0 l Hl Hndl) as (_ & Hr' & _).
        congruence.
  - assert (Hnot : ~ In (source_id item) (map fst d)).
    { intros K. apply dict_mem_In in K. congruence. }
    split.
    + intros x Hx. rewrite map_app, in_app_iff. simpl.
      apply in_app_or in Hx. destruct Hx as [Hx | [<- | []]]; [left; now apply Hids | tauto].
    + intros k it Hin. unfold first_with_id. rewrite find_app_first.
      apply in_app_or in Hin. destruct Hin as [Hin | [[= <- <-] | []]].
      * destruct (Hrec k it Hin) as (x & Hx & Hr). unfold first_with_id in Hx.
        rewrite Hx. now exists x.
      * destruct (List.find _ processed) as [x |] eqn:Ef.
        -- apply List.find_some in Ef. destruct Ef as [Hx Heq].
           apply String.eqb_eq in Heq. exfalso. apply Hnot. rewrite <- Heq. now apply Hids.
        -- simpl. rewrite String.eqb_refl. exists item. split; reflexivity.
Qed.

Lemma merge_sections_first_kept (fetched : list (string * list RawItem)) :
  first_kept (fetched_items fetched) (merge_sections fetched).
Proof.
  unfold merge_sections.
  assert (Hinner : forall sec items seen processed d,
             merged seen d -> first_kept processed d ->
             first_kept (processed ++ items)%list (fold_left (merge_item sec) items d)
             /\ merged (seen ++ map (fun it => (sec, source_id it)) items)%list
                  (fold_left (merge_item sec) items d)).
  { intros sec items. induction items as [| item items IH]; intros seen processed d Hm Hf.
    - simpl. rewrite !app_nil_r. now split.
    - cbn [fold_left map].
      replace (processed ++ item :: items)%list with ((processed ++ [item]) ++ items)%list
        by (now rewrite <- app_assoc).
      replace (seen ++ (sec, source_id item) :: map (fun it => (sec, source_id it)) items)%list
        with ((seen ++ [(sec, source_id item)])
              ++ map (fun it => (sec, source_id it)) items)%list
        by (now rewrite <- app_assoc).
      apply IH; [now apply merge_item_merged | now apply (merge_item_first_kept sec seen)]. }
  assert (H : forall seen processed d,
             merged seen d -> first_kept processed d ->
             first_kept (processed ++ fetched_items fetched)%list
               (fold_left (fun all_items '(section_key, items) =>
                             fold_left (merge_item section_key) items all_items)
                          fetched d)).
  { induction fetched as [| [sec items] fetched IH]; intros seen processed d Hm Hf.
    - simpl. now rewrite app_nil_r.
    - cbn [fold_left]. unfold fetched_items. cbn [map concat snd].
      rewrite app_assoc.
      destruct (Hinner sec items seen processed d Hm Hf) as [Hf' Hm'].
      exact (IH _ _ _ Hm' Hf'). }
  apply (H [] [] []).
  - split; [constructor |]. split.
    + intros k. simpl. split; [tauto | intros [sec []]].
    + intros k it [].
  - split; [intros x [] | intros k it []].
Qed.

(** X26. Of several fetched items with one id the first one fetched is
    the one kept: the record of every unique item is the record of the first
    fetched item with its id, later duplicates only adding their section. *)
Theorem unique_items_keep_first_fetched (fetched : list (string * list RawItem))
    (it : RawItem) :
  In it (unique_items fetched) ->
  exists x,
    first_with_id (source_id it) (fetched_items fetched) = Some x
    /\ record it = record x.
Proof.
  intros Hin. unfold unique_items in Hin. apply in_map_iff in Hin.
  destruct Hin as ([k it'] & <- & Hin).
  destruct (merge_sections_merged fetched) as (_ & _ & Hent).
  destruct (Hent k it' Hin) as (Hid & _).
  destruct (merge_sections_first_kept fetched) as [_ Hrec].
  destruct (Hrec k it' Hin) as (x & Hx & Hr).
  exists x. simpl. rewrite Hid. now split.
Qed.

Lemma unique_items_keep_first_fetched_witness :
  exists it x,
    In it (unique_items fetched_sample)
    /\ first_with_id (source_id it) (fetched_items fetched_sample) = Some x
    /\ record it = record x
    /\ title (record it) = Val "GPT-5 released".
Proof.
  eexists.
  assert (Hin : In _ (unique_items fetched_sample)) by (vm_compute; left; reflexivity).
  destruct (unique_items_keep_first_fetched fetched_sample _ Hin) as (x & Hx & Hr).
  exists x. split; [exact Hin |]. split; [exact Hx |]. split; [exact Hr | reflexivity].
Defined.

(** * Letter case and sections *)

Lemma lower_ascii_idempotent (c : ascii) : lower_ascii (lower_ascii c) = lower_ascii c.
Proof. destruct c as [[] [] [] [] [] [] [] []]; reflexivity. Qed.

Lemma lower_idempotent (s : string) : lower (lower s) = lower s.
Proof.
  induction s as [| c s IH]; simpl; [reflexivity |].
  now rewrite lower_ascii_idempotent, IH.
Qed.

Lemma lowered_lower_field (f : field string) : lowered (lower_field f) = lowered f.
Proof. destruct f; simpl; [reflexivity | reflexivity |]. apply lower_idempotent. Qed.

(** X27. Classification ignores letter case: a record and the same record
    with its title and body put in lower case get the same classification. *)
Theorem classify_item_ignores_case (item : Item) :
  classify_item (lower_item item) = classify_item item.
Proof.
  unfold classify_item, item_text, lower_item; cbn [title content].
  now rewrite !lowered_lower_field.
Qed.

(** X28. The audience and the newsletter section of an item always go
    together: the audience of every curated item is the one named for its
    theme, with the general audience exactly for the items filed under
    Other. *)
Theorem audience_follows_theme (c : CuratedItem) :
  _determine_audience (classification c) = audience_of_theme (theme_of c).
Proof.
  unfold _determine_audience, theme_of.
  destruct (primary_topic (classification c)) as [topic |]; [| reflexivity].
  repeat match goal with
         | |- context [if ?b then _ else _] => destruct b; [reflexivity |]
         end.
  reflexivity.
Qed.

Lemma classification_shape_witness :
  is_ai_relevant (classify_item shouting_item) = negb (is_noise (classify_item shouting_item))
  /\ filter_reason (classify_item shouting_item) = None
  /\ all_topics (classify_item shouting_item) = ["llm"; "ml_research"]
  /\ classify_item (lower_item shouting_item) = classify_item shouting_item.
Proof.
  destruct (classification_shape shouting_item) as (H1 & _ & H3).
  destruct (H3 ltac:(vm_compute; reflexivity)) as (Hr & _).
  split; [exact H1 |]. split; [exact Hr |]. split; [vm_compute; reflexivity |].
  vm_compute. reflexivity.
Defined.

Lemma publish_scan_accounts_for_pool_witness :
  (length (published (publish_scan 8 [low_llm_item "GPT notes"; low_llm_item "Claude notes"]
                        empty_scan))
   + length (hidden (publish_scan 8 [low_llm_item "GPT notes"; low_llm_item "Claude notes"]
                       empty_scan))
   = length [low_llm_item "GPT notes"; low_llm_item "Claude notes"])%nat.
Proof.
  destruct (publish_scan_accounts_for_pool 8
              [low_llm_item "GPT notes"; low_llm_item "Claude notes"]) as [_ H].
  apply H. vm_compute. reflexivity.
Defined.

Lemma top_item_always_published_witness :
  published (publish_scan 0 [low_llm_item "GPT notes"; low_llm_item "Claude notes"] empty_scan)
  = [low_llm_item "GPT notes"]
  /\ hidden (publish_scan 0 [low_llm_item "GPT notes"; low_llm_item "Claude notes"] empty_scan)
     = [].
Proof.
  destruct (top_item_always_published 0 (low_llm_item "GPT notes")
              [low_llm_item "Claude notes"]) as [_ H].
  apply H. lia.
Defined.
